(** * Measurement ingestion loop of [examples/kinematics.cpp]

    A shallow embedding of the [main] function of the contact-aided
    invariant-EKF example: the line splitter, the three record handlers
    (IMU, CONTACT, KINEMATIC), the temporal gate on IMU propagation and the
    "store previous" epilogue of every loop iteration.

    - [double] is IEEE binary64, taken as Rocq's primitive [float];
    - [size_t] arithmetic is unsigned 64-bit with the wrap-around written out;
    - the [int] loop counters are checked against [INT_MAX] (signed overflow
      is undefined behaviour and is reported as such);
    - [assert] is compiled in (no [NDEBUG]); a failed [assert], a throwing
      [stod]/[stoi] and an out-of-range [operator[]] end the program early;
    - the Eigen operations follow Eigen 3.3 ([normalize] guards against a
      squared norm that is not positive); [squaredNorm] and [normalize] are
      also kept as templates over the scalar type, to be read over the real
      numbers where exact arithmetic is meant;
    - the estimator object [filter] lives outside this file: it is modelled
      by the ordered log of the calls the loop makes on it;
    - [stod] and [stoi] belong to the C++ standard library: the driver is
      parametrised by them, and a small decimal reader instantiates them for
      the worked examples. *)

From Stdlib Require Import PrimFloat ZArith String Ascii Bool Arith Lia List.
From Stdlib Require Reals Lra.
Import ListNotations.

Set Warnings "-inexact-float".

#[local] Open Scope string_scope.
#[local] Open Scope list_scope.
#[local] Open Scope nat_scope.

(** ** Early termination *)

Inductive failure : Type :=
| AssertionFailed      (* an [assert] on the token count was violated *)
| ConversionThrown     (* [stod] or [stoi] threw on a token *)
| IndexOutOfRange      (* [measurement[i]] with [i >= measurement.size()] *)
| SignedOverflow.      (* an [int] counter left the range of [int] *)

Inductive result (A : Type) : Type :=
| Ok (a : A)
| Abort (e : failure).
Arguments Ok {A} a.
Arguments Abort {A} e.

Definition bind {A B : Type} (c : result A) (k : A -> result B) : result B :=
  match c with
  | Ok a => k a
  | Abort e => Abort e
  end.

Notation "x <- c ;; k" := (bind c (fun x => k))
  (at level 61, c at next level, right associativity).

Definition assert (b : bool) : result unit :=
  if b then Ok tt else Abort AssertionFailed.

Definition throwing {A : Type} (o : option A) : result A :=
  match o with
  | Some a => Ok a
  | None => Abort ConversionThrown
  end.

(** [for (int i = start; i < stop; i += step) body]: the loop state [s] is
    threaded through the body.  [fuel] bounds the number of rounds; the
    handlers pass [stop] itself, and [for_loop_counted] below shows that this
    is enough for the loops the assertions let through. *)
Definition INT_MAX : Z := 2147483647.

Fixpoint for_loop {S : Type} (fuel : nat) (i step stop : nat)
    (body : nat -> S -> result S) (s : S) : result S :=
  match fuel with
  | O => Ok s
  | Datatypes.S fuel' =>
      if i <? stop then
        s' <- body i s ;;
        if (INT_MAX <? Z.of_nat (i + step))%Z then Abort SignedOverflow
        else for_loop fuel' (i + step) step stop body s'
      else Ok s
  end.

(** [for (int j = 0; j < n; ++j) body] with a constant bound. *)
Fixpoint foldM {A S : Type} (body : S -> A -> result S) (l : list A) (s : S)
    : result S :=
  match l with
  | [] => Ok s
  | a :: l' => s' <- body s a ;; foldM body l' s'
  end.

(** ** [boost::split(measurement, line, boost::is_any_of(" "))]

    Token compression is off (the default): every space ends a token, so
    [k] spaces give [k + 1] tokens, some of them possibly empty.  Only the
    space character separates; a tab is part of a token. *)
Definition is_space (c : ascii) : bool := Ascii.eqb c " "%char.

Fixpoint split (line : string) : list string :=
  match line with
  | EmptyString => [EmptyString]
  | String c rest =>
      if is_space c then EmptyString :: split rest
      else match split rest with
           | tok :: toks => String c tok :: toks
           | [] => [String c EmptyString]
           end
  end.

(** [measurement[i]] on a [std::vector<std::string>]. *)
Definition at_ (measurement : list string) (i : nat) : result string :=
  match nth_error measurement i with
  | Some tok => Ok tok
  | None => Abort IndexOutOfRange
  end.

(** [measurement.size() - 2] in [size_t]. *)
Definition SIZE_MAX : Z := 2 ^ 64 - 1.

Definition size_minus_2 (measurement : list string) : Z :=
  ((Z.of_nat (length measurement) - 2) mod 2 ^ 64)%Z.

(** ** The Eigen objects the loop builds *)

Module Eigen.
#[local] Open Scope float_scope.

Definition Vector := list float.
Definition Matrix := list (list float).

Definition Zero (n : nat) : Vector := repeat 0 n.

Definition coeff (M : Matrix) (j k : nat) : float := nth k (nth j M []) 0.

Fixpoint set_nth {A : Type} (l : list A) (i : nat) (x : A) : list A :=
  match l, i with
  | [], _ => []
  | _ :: l', O => x :: l'
  | a :: l', Datatypes.S i' => a :: set_nth l' i' x
  end.

(** [M(j,k) = x] *)
Definition set_coeff (M : Matrix) (j k : nat) (x : float) : Matrix :=
  set_nth M j (set_nth (nth j M []) k x).

(** [M.block<rows,cols>(r0,c0) = B] *)
Definition set_block (rows cols r0 c0 : nat) (M B : Matrix) : Matrix :=
  fold_left
    (fun M j =>
       fold_left (fun M k => set_coeff M (r0 + j) (c0 + k) (coeff B j k))
                 (seq 0 cols) M)
    (seq 0 rows) M.

(** A column vector seen as a matrix with one column. *)
Definition col (v : Vector) : Matrix := map (fun x => [x]) v.

Definition Identity4 : Matrix :=
  [[1; 0; 0; 0]; [0; 1; 0; 0]; [0; 0; 1; 0]; [0; 0; 0; 1]].

(** Content of a declared but not yet assigned 6x6 matrix.  Every cell is
    overwritten before it is read ([fill_Cov_overwrites]), so the choice
    of the placeholder is immaterial. *)
Definition Uninitialized6 : Matrix := repeat (repeat nan 6) 6.

(** [Eigen::Quaternion<double>(w, x, y, z)] *)
Record Quaternion : Type := Quat { qw : float; qx : float; qy : float; qz : float }.

Definition squaredNorm (q : Quaternion) : float :=
  (qx q * qx q + qy q * qy q) + (qz q * qz q + qw q * qw q).

(** [q.normalize()]: the coefficients are divided by the norm, unless the
    squared norm is not positive. *)
Definition normalize (q : Quaternion) : Quaternion :=
  let z := squaredNorm q in
  if 0 <? z then
    let n := sqrt z in
    Quat (qw q / n) (qx q / n) (qy q / n) (qz q / n)
  else q.

(** [q.toRotationMatrix()] *)
Definition toRotationMatrix (q : Quaternion) : Matrix :=
  let tx := 2 * qx q in
  let ty := 2 * qy q in
  let tz := 2 * qz q in
  let twx := tx * qw q in
  let twy := ty * qw q in
  let twz := tz * qw q in
  let txx := tx * qx q in
  let txy := ty * qx q in
  let txz := tz * qx q in
  let tyy := ty * qy q in
  let tyz := tz * qy q in
  let tzz := tz * qz q in
  [[1 - (tyy + tzz); txy - twz; txz + twy];
   [txy + twz; 1 - (txx + tzz); tyz - twx];
   [txz - twy; tyz + twx; 1 - (txx + tyy)]].
End Eigen.

(** ** [squaredNorm] and [normalize] as the templates they are

    Eigen writes both once for every scalar type; [Eigen.squaredNorm] and
    [Eigen.normalize] above are their instances at [double]
    ([normalize_is_template]).  Here the same text is kept over an arbitrary
    scalar type, with the operations it uses, so that it can also be read
    over the real numbers. *)

Module Template.

Record Scalar (T : Type) : Type := {
  zero : T;
  add : T -> T -> T;
  mul : T -> T -> T;
  div : T -> T -> T;
  sqrt : T -> T;
  lt : T -> T -> bool
}.
Arguments zero {T} _.
Arguments add {T} _ _ _.
Arguments mul {T} _ _ _.
Arguments div {T} _ _ _.
Arguments sqrt {T} _ _.
Arguments lt {T} _ _ _.

Definition squaredNorm {T : Type} (S : Scalar T) (w x y z : T) : T :=
  add S (add S (mul S x x) (mul S y y)) (add S (mul S z z) (mul S w w)).

Definition normalize {T : Type} (S : Scalar T) (w x y z : T) : T * T * T * T :=
  let s := squaredNorm S w x y z in
  if lt S (zero S) s then
    let n := sqrt S s in
    (div S w n, div S x n, div S y n, div S z n)
  else (w, x, y, z).



End Template.

(** ** Calls on the estimator *)

Inductive call : Type :=
| Propagate (m : Eigen.Vector) (dt : float)
| setContacts (contacts : list (Z * bool))
| CorrectKinematics (measured_kinematics : list (Z * Eigen.Matrix * Eigen.Matrix)).

(** The variables of [main] that live across loop iterations. *)
Record state : Type := State {
  t : float;
  t_prev : float;
  imu_measurement : Eigen.Vector;
  imu_measurement_prev : Eigen.Vector;
  filter_calls : list call  (* calls made on [filter], oldest first *)
}.

Definition initial : state :=
  State 0%float 0%float (Eigen.Zero 6) (Eigen.Zero 6) [].

Definition set_t (st : state) (x : float) : state :=
  State x (t_prev st) (imu_measurement st) (imu_measurement_prev st)
        (filter_calls st).

Definition set_imu_measurement (st : state) (v : Eigen.Vector) : state :=
  State (t st) (t_prev st) v (imu_measurement_prev st) (filter_calls st).

Definition invoke (st : state) (c : call) : state :=
  State (t st) (t_prev st) (imu_measurement st) (imu_measurement_prev st)
        (filter_calls st ++ [c]).

(** [t_prev = t; imu_measurement_prev = imu_measurement;] *)
Definition store_previous (st : state) : state :=
  State (t st) (t st) (imu_measurement st) (imu_measurement st)
        (filter_calls st).

(** ** The temporal gate *)

Definition DT_MIN : float := 1e-6%float.
Definition DT_MAX : float := 1%float.

(** [dt > DT_MIN && dt < DT_MAX] *)
Definition gate (dt : float) : bool :=
  PrimFloat.ltb DT_MIN dt && PrimFloat.ltb dt DT_MAX.

(** [bool(x)] for a [double]: true unless [x] compares equal to zero. *)
Definition bool_of_double (x : float) : bool := negb (PrimFloat.eqb x 0%float).

(** ** A reader for plain decimal tokens

    [stod] and [stoi] are library functions; the worked examples below need
    them on tokens such as [0.100] or [-1].  This reader accepts an optional
    minus sign, digits, and (for [stod]) an optional fractional part, with at
    most 15 digits in all, so that the digits and the power of ten are exact
    in binary64 and the single division rounds to the nearest double, as
    [stod] does.  Any other token is refused here. *)

Module Decimal.
Definition digit (c : ascii) : option nat :=
  let n := nat_of_ascii c in
  if (48 <=? n) && (n <=? 57) then Some (n - 48) else None.

Definition float_of_digit (d : nat) : float :=
  match d with
  | 0 => 0 | 1 => 1 | 2 => 2 | 3 => 3 | 4 => 4
  | 5 => 5 | 6 => 6 | 7 => 7 | 8 => 8 | _ => 9
  end%float.

(** Reads the leading digits of [s]; returns the value read so far, the
    number of digits seen and the rest of the token. *)
Fixpoint digits (s : string) (acc : float) (n : nat) : float * nat * string :=
  match s with
  | String c s' =>
      match digit c with
      | Some d => digits s' (acc * 10 + float_of_digit d)%float (S n)
      | None => (acc, n, s)
      end
  | EmptyString => (acc, n, s)
  end.

Fixpoint pow10 (k : nat) : float :=
  match k with
  | O => 1%float
  | S k' => (pow10 k' * 10)%float
  end.

Definition unsigned (s : string) : option float :=
  let '(ip, n1, r) := digits s 0%float 0 in
  if n1 =? 0 then None
  else match r with
       | EmptyString => if n1 <=? 15 then Some ip else None
       | String "."%char f =>
           let '(m, n, r') := digits f ip n1 in
           match r' with
           | EmptyString =>
               if n <=? 15 then Some (m / pow10 (n - n1))%float else None
           | _ => None
           end
       | _ => None
       end.

Definition stod (s : string) : option float :=
  match s with
  | String "-"%char s' => option_map PrimFloat.opp (unsigned s')
  | _ => unsigned s
  end.

Fixpoint natural (s : string) (acc : Z) : option Z :=
  match s with
  | String c s' =>
      match digit c with
      | Some d => natural s' (10 * acc + Z.of_nat d)%Z
      | None => None
      end
  | EmptyString => Some acc
  end.

Definition in_int (v : Z) : option Z :=
  if ((- INT_MAX - 1 <=? v) && (v <=? INT_MAX))%Z then Some v else None.

Definition stoi (s : string) : option Z :=
  match s with
  | EmptyString => None
  | String "-"%char EmptyString => None
  | String "-"%char s' =>
      match natural s' 0%Z with
      | Some v => in_int (- v)
      | None => None
      end
  | _ =>
      match natural s 0%Z with
      | Some v => in_int v
      | None => None
      end
  end.
End Decimal.

(** ** The loop of [main] *)

Section Driver.

Variable stod : string -> option float.
Variable stoi : string -> option Z.

(** [stod(measurement[i])] and [stoi(measurement[i])] *)
Definition stod_at (measurement : list string) (i : nat) : result float :=
  tok <- at_ measurement i ;; throwing (stod tok).

Definition stoi_at (measurement : list string) (i : nat) : result Z :=
  tok <- at_ measurement i ;; throwing (stoi tok).

(** The [IMU] branch. *)
Definition handle_IMU (measurement : list string) (st : state) : result state :=
  _ <- assert (size_minus_2 measurement =? 6)%Z ;;
  t' <- stod_at measurement 1 ;;
  let st := set_t st t' in
  a2 <- stod_at measurement 2 ;;
  a3 <- stod_at measurement 3 ;;
  a4 <- stod_at measurement 4 ;;
  a5 <- stod_at measurement 5 ;;
  a6 <- stod_at measurement 6 ;;
  a7 <- stod_at measurement 7 ;;
  let st := set_imu_measurement st [a2; a3; a4; a5; a6; a7] in
  let dt := (t st - t_prev st)%float in
  if gate dt then Ok (invoke st (Propagate (imu_measurement_prev st) dt))
  else Ok st.

(** The [CONTACT] branch. *)
Definition contact_body (measurement : list string) (i : nat)
    (contacts : list (Z * bool)) : result (list (Z * bool)) :=
  id <- stoi_at measurement i ;;
  x <- stod_at measurement (i + 1) ;;
  Ok (contacts ++ [(id, bool_of_double x)]).

Definition handle_CONTACT (measurement : list string) (st : state) : result state :=
  _ <- assert (size_minus_2 measurement mod 2 =? 0)%Z ;;
  t' <- stod_at measurement 1 ;;
  let st := set_t st t' in
  contacts <- for_loop (length measurement) 2 2 (length measurement)
                       (contact_body measurement) [] ;;
  Ok (invoke st (setContacts contacts)).

(** The [KINEMATIC] branch.  [H] and [Cov] are declared before the [for]
    loop and live across its iterations, so they are part of the loop
    state together with [measured_kinematics]. *)
Definition fill_Cov (measurement : list string) (i : nat) (Cov : Eigen.Matrix)
    : result Eigen.Matrix :=
  foldM (fun Cov j =>
           foldM (fun Cov k =>
                    x <- stod_at measurement (i + 8 + j * 6 + k) ;;
                    Ok (Eigen.set_coeff Cov j k x))
                 (seq 0 6) Cov)
        (seq 0 6) Cov.

Definition kinematic_state : Type :=
  Eigen.Matrix * Eigen.Matrix * list (Z * Eigen.Matrix * Eigen.Matrix).

Definition kinematic_body (measurement : list string) (i : nat)
    (s : kinematic_state) : result kinematic_state :=
  let '(H, Cov, measured_kinematics) := s in
  id <- stoi_at measurement i ;;
  qw <- stod_at measurement (i + 1) ;;
  qx <- stod_at measurement (i + 2) ;;
  qy <- stod_at measurement (i + 3) ;;
  qz <- stod_at measurement (i + 4) ;;
  let q := Eigen.normalize (Eigen.Quat qw qx qy qz) in
  px <- stod_at measurement (i + 5) ;;
  py <- stod_at measurement (i + 6) ;;
  pz <- stod_at measurement (i + 7) ;;
  let p := [px; py; pz] in
  let H := Eigen.set_block 3 3 0 0 H (Eigen.toRotationMatrix q) in
  let H := Eigen.set_block 3 1 0 3 H (Eigen.col p) in
  Cov <- fill_Cov measurement i Cov ;;
  Ok (H, Cov, measured_kinematics ++ [(id, H, Cov)]).

Definition handle_KINEMATIC (measurement : list string) (st : state) : result state :=
  _ <- assert (size_minus_2 measurement mod 44 =? 0)%Z ;;
  t' <- stod_at measurement 1 ;;
  let st := set_t st t' in
  s <- for_loop (length measurement) 2 44 (length measurement)
                (kinematic_body measurement)
                (Eigen.Identity4, Eigen.Uninitialized6, []) ;;
  Ok (invoke st (CorrectKinematics (snd s))).

(** One iteration of the [while (getline(infile, line))] loop. *)
Definition dispatch (measurement : list string) (st : state) : result state :=
  tag <- at_ measurement 0 ;;
  if String.eqb tag "IMU" then handle_IMU measurement st
  else if String.eqb tag "CONTACT" then handle_CONTACT measurement st
  else if String.eqb tag "KINEMATIC" then handle_KINEMATIC measurement st
  else Ok st.

Definition loop_body (line : string) (st : state) : result state :=
  st' <- dispatch (split line) st ;;
  Ok (store_previous st').

(** The whole loop over the lines [getline] delivers, and [main]. *)
Fixpoint main_loop (lines : list string) (st : state) : result state :=
  match lines with
  | [] => Ok st
  | line :: rest => st' <- loop_body line st ;; main_loop rest st'
  end.

Definition main (lines : list string) : result state :=
  main_loop lines initial.


(** ** Vocabulary of the statements *)

(** Token [i] of a line already split (the empty token beyond the end). *)
Definition token (measurement : list string) (i : nat) : string :=
  nth i measurement "".

Definition tag (line : string) : string := token (split line) 0.

Definition recognised (tg : string) : Prop :=
  tg = "IMU" \/ tg = "CONTACT" \/ tg = "KINEMATIC".

(** The states the loop can be in when it reads a line. *)
Definition reachable (st : state) : Prop :=
  exists lines, main lines = Ok st.

(** Both caches agree with the variables they were copied from. *)
Definition synced (st : state) : Prop :=
  t_prev st = t st /\ imu_measurement_prev st = imu_measurement st.

(** The values [i, i + step, ...] an [int] counter takes in [n] rounds. *)
Fixpoint indices (i step n : nat) : list nat :=
  match n with
  | O => []
  | S n' => i :: indices (i + step) step n'
  end.

(** A matrix with [r] rows of [c] coefficients each. *)
Definition dims (r c : nat) (M : Eigen.Matrix) : Prop :=
  length M = r /\ forall j, j < r -> length (nth j M []) = c.

(** A 4x4 matrix whose last row is [0 0 0 1]. *)
Definition affine (H : Eigen.Matrix) : Prop :=
  exists r0 r1 r2 : float * float * float * float,
    H = [ (let '(a, b, c, d) := r0 in [a; b; c; d]);
          (let '(a, b, c, d) := r1 in [a; b; c; d]);
          (let '(a, b, c, d) := r2 in [a; b; c; d]);
          [0; 0; 0; 1]%float ].

(** The pose a KINEMATIC entry describes: rotation block [R], position
    [p], last row [0 0 0 1]. *)
Definition homogeneous_transform (R : Eigen.Matrix) (p : Eigen.Vector)
    : Eigen.Matrix :=
  [ [Eigen.coeff R 0 0; Eigen.coeff R 0 1; Eigen.coeff R 0 2; nth 0 p 0%float];
    [Eigen.coeff R 1 0; Eigen.coeff R 1 1; Eigen.coeff R 1 2; nth 1 p 0%float];
    [Eigen.coeff R 2 0; Eigen.coeff R 2 1; Eigen.coeff R 2 2; nth 2 p 0%float];
    [0; 0; 0; 1]%float ].

(** The 6x6 matrix whose coefficient (j, k) is the value at position
    [base + j * 6 + k] of a flat sequence [v]. *)
Definition row_major_6x6 (v : nat -> float) (base : nat) : Eigen.Matrix :=
  map (fun j => map (fun k => v (base + j * 6 + k)) (seq 0 6)) (seq 0 6).

(** The observation built from the 44 tokens that start at token [i], when
    token [i] reads as the integer [ints i] and token [i + o] as the double
    [v (i + o)]. *)
Definition observation (ints : nat -> Z) (v : nat -> float) (i : nat)
    : Z * Eigen.Matrix * Eigen.Matrix :=
  (ints i,
   homogeneous_transform
     (Eigen.toRotationMatrix
        (Eigen.normalize
           (Eigen.Quat (v (i + 1)) (v (i + 2)) (v (i + 3)) (v (i + 4)))))
     [v (i + 5); v (i + 6); v (i + 7)],
   row_major_6x6 v (i + 8)).

(** Modelled from the spec: the estimator that takes the 6-vector apart is
    not in this file; an ImuSample is a 3-component angular velocity
    followed by a 3-component linear acceleration (file format
    [IMU <t> <wx> <wy> <wz> <ax> <ay> <az>]). *)
Definition angular_velocity (m : Eigen.Vector) : Eigen.Vector := firstn 3 m.

(** Modelled from the spec: the last three components of an ImuSample, see
    [angular_velocity]. *)
Definition linear_acceleration (m : Eigen.Vector) : Eigen.Vector := skipn 3 m.

(** The double whose value is a small natural number. *)
Fixpoint float_of_nat (n : nat) : float :=
  match n with
  | O => 0%float
  | S n' => (float_of_nat n' + 1)%float
  end.

(** ** Quaternions on which [normalize] is probed in binary64 *)












(** Number of space characters in a line. *)
Fixpoint count_spaces (line : string) : nat :=
  match line with
  | EmptyString => 0
  | String c rest => (if is_space c then 1 else 0) + count_spaces rest
  end.

(** A token without any space character. *)
Fixpoint space_free (tok : string) : bool :=
  match tok with
  | EmptyString => true
  | String c rest => negb (is_space c) && space_free rest
  end.

(** ** Worked inputs *)

Definition imu_line_0 : string := "IMU 0.000 0 0 0 0 0 0".
Definition imu_line_1 : string := "IMU 0.100 0 0 0 0 0 9.81".
Definition imu_line_repeated : string := "IMU 0.500 6 5 4 3 2 1".
Definition imu_line_short : string := "IMU 1 2 3".
Definition contact_line : string := "CONTACT 1.0 0 1 1 0".
Definition contact_line_odd : string := "CONTACT 1.0 0".
Definition contact_line_values : string := "CONTACT 1.0 0 2.5 1 -1 2 0".
Definition kinematic_line : string :=
  "KINEMATIC 0.5 4 1 0 0 0 1 2 3 0 1 2 3 4 5 6 7 8 9 10 11 12 13 14 15 16 17 18 19 20 21 22 23 24 25 26 27 28 29 30 31 32 33 34 35".
Definition unknown_line : string := "FOO 5.0".

Definition imu_line_bad_number : string := "IMU 0.2 0 0 x 0 0 0".
Definition kinematic_line_short : string := "KINEMATIC 0.5 4 1 0".
Definition contact_line_2 : string := "CONTACT 0.3 0 1".
Definition imu_line_after_contact : string := "IMU 0.35 1 2 3 4 5 6".

(** The state after a first record [IMU 0.500 1 2 3 4 5 6]. *)
Definition after_first_imu : state :=
  State 0.5 0.5 [1; 2; 3; 4; 5; 6]%float [1; 2; 3; 4; 5; 6]%float
        [Propagate (Eigen.Zero 6) 0.5].

(** The state after the records [imu_line_0] and [imu_line_1]. *)
Definition after_two_imu : state :=
  State 0.1 0.1 [0; 0; 0; 0; 0; 9.81]%float [0; 0; 0; 0; 0; 9.81]%float
        [Propagate (Eigen.Zero 6) 0.1].

(** What the decimal reader makes of token [i] of a line. *)
Definition doubles (line : string) (i : nat) : float :=
  match Decimal.stod (token (split line) i) with
  | Some x => x
  | None => 0%float
  end.

Definition integers (line : string) (i : nat) : Z :=
  match Decimal.stoi (token (split line) i) with
  | Some x => x
  | None => 0%Z
  end.

(** ** Loops *)

Lemma bind_Ok {A B : Type} (c : result A) (k : A -> result B) (b : B) :
  bind c k = Ok b -> exists a, c = Ok a /\ k a = Ok b.
Proof.
  destruct c as [a | e]; simpl; intros E; [exists a; auto | discriminate].
Qed.

Lemma for_loop_counted {S : Type} (body : nat -> S -> result S) :
  forall n fuel i step stop s,
    0 < step -> stop = i + n * step -> n <= fuel ->
    (Z.of_nat stop <= INT_MAX)%Z ->
    for_loop fuel i step stop body s
    = foldM (fun s i => body i s) (indices i step n) s.
Proof.
  induction n as [| n IH]; intros fuel i step stop s Hstep Hstop Hfuel Hmax.
  - simpl in Hstop. rewrite Nat.add_0_r in Hstop. subst stop. simpl.
    destruct fuel; simpl; [reflexivity |].
    rewrite Nat.ltb_irrefl. reflexivity.
  - destruct fuel as [| fuel]; [lia |]. simpl.
    assert (Hlt : (i <? stop) = true) by (apply Nat.ltb_lt; simpl in Hstop; lia).
    rewrite Hlt. destruct (body i s) as [s' | e]; simpl; [| reflexivity].
    assert (Hov : (INT_MAX <? Z.of_nat (i + step))%Z = false).
    { apply Z.ltb_ge. simpl in Hstop. lia. }
    rewrite Hov. apply IH; simpl in Hstop; lia.
Qed.

Lemma indices_seq (i step n : nat) :
  indices i step n = map (fun k => i + k * step) (seq 0 n).
Proof.
  revert i. induction n as [| n IH]; intros i; simpl; [reflexivity |].
  f_equal; [lia |]. rewrite IH, <- seq_shift, map_map.
  apply map_ext. intros k. simpl. lia.
Qed.

(** A loop whose body appends one element per round builds the list of
    those elements, in the order of the rounds. *)
Lemma foldM_push_back {A B : Type} (body : list B -> A -> result (list B))
    (f : A -> B) :
  forall l acc,
    (forall a acc, In a l -> body acc a = Ok (acc ++ [f a])) ->
    foldM body l acc = Ok (acc ++ map f l).
Proof.
  induction l as [| a l IH]; intros acc Hbody; simpl.
  - now rewrite app_nil_r.
  - rewrite Hbody by (left; reflexivity). simpl.
    rewrite IH by (intros; apply Hbody; right; assumption).
    now rewrite <- app_assoc.
Qed.

(** Invariants of a counted loop, indexed by the round. *)
Lemma foldM_seq_invariant {S : Type} (P : nat -> S -> Prop)
    (body : S -> nat -> result S) :
  forall n a s,
    P a s ->
    (forall k s, a <= k < a + n -> P k s ->
                 exists s', body s k = Ok s' /\ P (Datatypes.S k) s') ->
    exists s', foldM body (seq a n) s = Ok s' /\ P (a + n) s'.
Proof.
  induction n as [| n IH]; intros a s Hs Hbody; simpl.
  - exists s. now rewrite Nat.add_0_r.
  - destruct (Hbody a s) as (s1 & E1 & H1); [lia | assumption |].
    rewrite E1. simpl.
    destruct (IH (Datatypes.S a) s1 H1) as (s2 & E2 & H2).
    { intros k s0 Hk. apply Hbody. lia. }
    exists s2. split; [assumption |].
    now replace (a + Datatypes.S n) with (Datatypes.S a + n) by lia.
Qed.

(** ** Splitting and indexing *)

Lemma split_nonempty (line : string) : split line <> [].
Proof.
  destruct line as [| c rest]; simpl; [discriminate |].
  destruct (is_space c); [discriminate |].
  destruct (split rest); discriminate.
Qed.

Lemma at_token (measurement : list string) (i : nat) :
  i < length measurement -> at_ measurement i = Ok (token measurement i).
Proof.
  intros Hi. unfold at_, token.
  now rewrite (nth_error_nth' measurement "" Hi).
Qed.

Lemma at_first (line : string) : at_ (split line) 0 = Ok (tag line).
Proof.
  apply at_token. pose proof (split_nonempty line) as H.
  destruct (split line); [congruence | simpl; lia].
Qed.

Lemma stod_at_Some (measurement : list string) (i : nat) (x : float) :
  i < length measurement -> stod (token measurement i) = Some x ->
  stod_at measurement i = Ok x.
Proof.
  intros Hi Hx. unfold stod_at. rewrite at_token by assumption.
  simpl. now rewrite Hx.
Qed.

Lemma stoi_at_Some (measurement : list string) (i : nat) (x : Z) :
  i < length measurement -> stoi (token measurement i) = Some x ->
  stoi_at measurement i = Ok x.
Proof.
  intros Hi Hx. unfold stoi_at. rewrite at_token by assumption.
  simpl. now rewrite Hx.
Qed.

Lemma stod_at_Ok (measurement : list string) (i : nat) (x : float) :
  stod_at measurement i = Ok x ->
  i < length measurement /\ stod (token measurement i) = Some x.
Proof.
  unfold stod_at, at_, token. intros E.
  destruct (nth_error measurement i) as [tok |] eqn:En; [| discriminate].
  split; [apply nth_error_Some; congruence |].
  rewrite (nth_error_nth _ _ _ En). simpl in E.
  destruct (stod tok); simpl in E; [congruence | discriminate].
Qed.


(** ** Coefficient-wise assignment *)

Lemma length_set_nth {A : Type} (l : list A) (i : nat) (x : A) :
  length (Eigen.set_nth l i x) = length l.
Proof.
  revert i. induction l as [| a l IH]; intros [| i]; simpl; auto.
Qed.

Lemma nth_set_nth {A : Type} (l : list A) (i j : nat) (x d : A) :
  nth j (Eigen.set_nth l i x) d
  = if (i =? j) && (i <? length l) then x else nth j l d.
Proof.
  revert i j. induction l as [| a l IH]; intros [| i] [| j]; simpl;
    try reflexivity.
  - now destruct (i =? j).
  - rewrite IH. reflexivity.
Qed.

Lemma dims_set_coeff (r c : nat) (M : Eigen.Matrix) (j k : nat) (x : float) :
  dims r c M -> dims r c (Eigen.set_coeff M j k x).
Proof.
  intros [Hr Hc]. unfold Eigen.set_coeff. split.
  - now rewrite length_set_nth.
  - intros j' Hj'. rewrite nth_set_nth.
    destruct ((j =? j') && (j <? length M)) eqn:E.
    + apply andb_prop in E as [E _]. apply Nat.eqb_eq in E. subst j'.
      rewrite length_set_nth. now apply Hc.
    + now apply Hc.
Qed.

Lemma coeff_set_coeff (r c : nat) (M : Eigen.Matrix) (j k j' k' : nat)
    (x : float) :
  dims r c M -> j < r -> k < c ->
  Eigen.coeff (Eigen.set_coeff M j k x) j' k'
  = if (j =? j') && (k =? k') then x else Eigen.coeff M j' k'.
Proof.
  intros [Hr Hc] Hj Hk. unfold Eigen.coeff, Eigen.set_coeff.
  rewrite nth_set_nth.
  assert (Hin : (j <? length M) = true) by (apply Nat.ltb_lt; lia).
  rewrite Hin, andb_true_r.
  destruct (j =? j') eqn:Ej; simpl; [| reflexivity].
  apply Nat.eqb_eq in Ej. subst j'. rewrite nth_set_nth.
  assert (Hin' : (k <? length (nth j M [])) = true)
    by (apply Nat.ltb_lt; rewrite Hc; lia).
  now rewrite Hin', andb_true_r.
Qed.

Lemma matrix_ext (r c : nat) (M N : Eigen.Matrix) :
  dims r c M -> dims r c N ->
  (forall j k, j < r -> k < c -> Eigen.coeff M j k = Eigen.coeff N j k) ->
  M = N.
Proof.
  intros [HrM HcM] [HrN HcN] Hcoeff.
  apply (nth_ext M N [] []); [congruence |].
  intros j Hj. rewrite HrM in Hj.
  apply (nth_ext _ _ 0%float 0%float).
  - rewrite HcM, HcN; auto.
  - intros k Hk. rewrite HcM in Hk by assumption. now apply Hcoeff.
Qed.

Lemma dims_row_major (v : nat -> float) (base : nat) :
  dims 6 6 (row_major_6x6 v base).
Proof.
  split; [reflexivity |]. intros j Hj.
  do 6 (destruct j as [| j]; [reflexivity |]). lia.
Qed.

Lemma coeff_row_major (v : nat -> float) (base j k : nat) :
  j < 6 -> k < 6 ->
  Eigen.coeff (row_major_6x6 v base) j k = v (base + j * 6 + k).
Proof.
  intros Hj Hk.
  do 6 (destruct j as [| j];
        [do 6 (destruct k as [| k]; [reflexivity |]); lia |]).
  lia.
Qed.

Lemma dims_Uninitialized6 : dims 6 6 Eigen.Uninitialized6.
Proof.
  split; [reflexivity |]. intros j Hj.
  do 6 (destruct j as [| j]; [reflexivity |]). lia.
Qed.

Lemma affine_Identity4 : affine Eigen.Identity4.
Proof.
  now exists (1, 0, 0, 0)%float, (0, 1, 0, 0)%float, (0, 0, 1, 0)%float.
Qed.

Lemma affine_homogeneous_transform (R : Eigen.Matrix) (p : Eigen.Vector) :
  affine (homogeneous_transform R p).
Proof.
  unfold affine, homogeneous_transform.
  now eexists (_, _, _, _), (_, _, _, _), (_, _, _, _).
Qed.

(** The two block assignments on [H] leave the pose of the entry, whatever
    the rotation and position of the previous entry were. *)
Lemma set_block_pose (H R : Eigen.Matrix) (px py pz : float) :
  affine H ->
  Eigen.set_block 3 1 0 3 (Eigen.set_block 3 3 0 0 H R) (Eigen.col [px; py; pz])
  = homogeneous_transform R [px; py; pz].
Proof.
  intros ([[[a0 b0] c0] d0] & [[[a1 b1] c1] d1] & [[[a2 b2] c2] d2] & ->).
  reflexivity.
Qed.

(** The double loop over [j] and [k] assigns every cell of [Cov]. *)
Lemma fill_Cov_overwrites (measurement : list string) (i : nat)
    (Cov : Eigen.Matrix) (v : nat -> float) :
  dims 6 6 Cov ->
  i + 44 <= length measurement ->
  (forall o, 8 <= o < 44 -> stod (token measurement (i + o)) = Some (v (i + o))) ->
  fill_Cov measurement i Cov = Ok (row_major_6x6 v (i + 8)).
Proof.
  intros HCov Hlen Hv. unfold fill_Cov.
  set (written := fun (j : nat) (C : Eigen.Matrix) =>
         dims 6 6 C /\
         forall j' k', j' < j -> k' < 6 ->
                       Eigen.coeff C j' k' = v (i + 8 + j' * 6 + k')).
  match goal with
  | |- foldM ?body _ _ = _ =>
      destruct (foldM_seq_invariant written body 6 0 Cov) as (C & E & HC & Hcells)
  end.
  - split; [assumption | intros; lia].
  - intros j C0 Hj [HC0 Hrows].
    set (row := fun (k : nat) (C : Eigen.Matrix) =>
           dims 6 6 C /\
           (forall j' k', j' < j -> k' < 6 ->
                          Eigen.coeff C j' k' = v (i + 8 + j' * 6 + k')) /\
           (forall k', k' < k ->
                       Eigen.coeff C j k' = v (i + 8 + j * 6 + k'))).
    match goal with
    | |- exists s', foldM ?body _ _ = _ /\ _ =>
        destruct (foldM_seq_invariant row body 6 0 C0) as (C1 & E1 & HC1 & Hup & Hrow)
    end.
    + repeat split; [apply HC0 | apply HC0 | assumption | intros; lia].
    + intros k C2 Hk (HC2 & Hup & Hrow).
      replace (i + 8 + j * 6 + k) with (i + (8 + j * 6 + k)) by lia.
      rewrite (stod_at_Some _ _ (v (i + (8 + j * 6 + k)))) by (try apply Hv; lia).
      simpl. eexists. split; [reflexivity |].
      split; [now apply dims_set_coeff |]. split.
      * intros j' k' Hj' Hk'.
        rewrite (coeff_set_coeff 6 6) by (assumption || lia).
        replace (j =? j') with false by (symmetry; apply Nat.eqb_neq; lia).
        simpl. now apply Hup.
      * intros k' Hk'.
        rewrite (coeff_set_coeff 6 6) by (assumption || lia).
        rewrite Nat.eqb_refl. simpl.
        destruct (k =? k') eqn:Ek.
        -- apply Nat.eqb_eq in Ek. subst k'. f_equal. lia.
        -- apply Hrow. apply Nat.eqb_neq in Ek. lia.
    + exists C1. split; [exact E1 |]. split; [assumption |].
      intros j' k' Hj' Hk'.
      destruct (Nat.eq_dec j' j) as [-> | Hne].
      * apply Hrow. simpl. lia.
      * apply Hup; [lia | assumption].
  - rewrite E. f_equal.
    apply (matrix_ext 6 6); [assumption | apply dims_row_major |].
    intros j k Hj Hk. rewrite coeff_row_major by assumption.
    apply Hcells; simpl; lia.
Qed.


(** ** The three handlers *)

Ltac bind_inv H :=
  repeat (let x := fresh "x" in
          let E := fresh "E" in
          apply bind_Ok in H; destruct H as (x & E & H)).

Lemma assert_Ok (b : bool) (u : unit) : assert b = Ok u -> b = true.
Proof. destruct b; [reflexivity | discriminate]. Qed.

Lemma size_minus_2_small (measurement : list string) :
  2 <= length measurement ->
  (Z.of_nat (length measurement) <= SIZE_MAX)%Z ->
  size_minus_2 measurement = (Z.of_nat (length measurement) - 2)%Z.
Proof.
  intros H2 Hmax. unfold size_minus_2. apply Z.mod_small.
  unfold SIZE_MAX in Hmax. lia.
Qed.

Lemma handle_IMU_ok (measurement : list string) (st : state) (tv : float)
    (v : nat -> float) :
  length measurement = 8 ->
  stod (token measurement 1) = Some tv ->
  (forall i, 2 <= i < 8 -> stod (token measurement i) = Some (v i)) ->
  handle_IMU measurement st
  = Ok (State tv (t_prev st) [v 2; v 3; v 4; v 5; v 6; v 7]
              (imu_measurement_prev st)
              (filter_calls st
               ++ if gate (tv - t_prev st)
                  then [Propagate (imu_measurement_prev st) (tv - t_prev st)]
                  else [])).
Proof.
  intros Hlen Ht Hv. unfold handle_IMU, size_minus_2. rewrite Hlen. simpl.
  rewrite (stod_at_Some _ _ tv) by (assumption || lia). simpl.
  do 6 (rewrite (stod_at_Some _ _ (v _)) by (try apply Hv; lia); simpl).
  destruct (gate (tv - t_prev st)); unfold invoke, set_imu_measurement, set_t;
    simpl; [reflexivity | now rewrite app_nil_r].
Qed.

Lemma handle_IMU_inv (measurement : list string) (st st' : state) :
  handle_IMU measurement st = Ok st' ->
  exists tv v2 v3 v4 v5 v6 v7,
    size_minus_2 measurement = 6%Z /\
    stod (token measurement 1) = Some tv /\
    stod (token measurement 2) = Some v2 /\
    stod (token measurement 3) = Some v3 /\
    stod (token measurement 4) = Some v4 /\
    stod (token measurement 5) = Some v5 /\
    stod (token measurement 6) = Some v6 /\
    stod (token measurement 7) = Some v7 /\
    st' = State tv (t_prev st) [v2; v3; v4; v5; v6; v7]
                (imu_measurement_prev st)
                (filter_calls st
                 ++ if gate (tv - t_prev st)
                    then [Propagate (imu_measurement_prev st) (tv - t_prev st)]
                    else []).
Proof.
  unfold handle_IMU. intros H. bind_inv H.
  apply assert_Ok, Z.eqb_eq in E.
  repeat match goal with
         | E : stod_at _ _ = Ok _ |- _ => apply stod_at_Ok in E; destruct E as [_ E]
         end.
  do 7 eexists. repeat (split; [eassumption |]).
  simpl in H. destruct (gate _); inversion H; unfold invoke; simpl;
    [reflexivity | now rewrite app_nil_r].
Qed.

Lemma handle_IMU_bad_length (measurement : list string) (st : state) :
  (Z.of_nat (length measurement) <= SIZE_MAX)%Z ->
  length measurement <> 8 ->
  handle_IMU measurement st = Abort AssertionFailed.
Proof.
  intros Hmax Hlen. unfold handle_IMU.
  assert (E : (size_minus_2 measurement =? 6)%Z = false).
  { apply Z.eqb_neq. unfold size_minus_2, SIZE_MAX in *.
    destruct (le_lt_dec 2 (length measurement)) as [H2 | H2].
    - rewrite Z.mod_small by lia. lia.
    - replace (Z.of_nat (length measurement) - 2)%Z
        with (-1 * 2 ^ 64 + (2 ^ 64 + Z.of_nat (length measurement) - 2))%Z by lia.
      rewrite Z.add_comm, Z.mod_add by lia.
      rewrite Z.mod_small by lia. lia. }
  rewrite E. reflexivity.
Qed.

(** Tokens read in pairs from token 2 on. *)
Lemma contact_loop_ok (measurement : list string) (n : nat)
    (ints : nat -> Z) (vals : nat -> float) :
  length measurement = 2 + 2 * n ->
  (Z.of_nat (length measurement) <= INT_MAX)%Z ->
  (forall k, k < n ->
     stoi (token measurement (2 + 2 * k)) = Some (ints (2 + 2 * k)) /\
     stod (token measurement (3 + 2 * k)) = Some (vals (3 + 2 * k))) ->
  for_loop (length measurement) 2 2 (length measurement)
           (contact_body measurement) []
  = Ok (map (fun k => (ints (2 + 2 * k), bool_of_double (vals (3 + 2 * k))))
            (seq 0 n)).
Proof.
  intros Hlen Hmax Hconv.
  rewrite (for_loop_counted _ n) by lia.
  rewrite (foldM_push_back _ (fun i => (ints i, bool_of_double (vals (i + 1))))).
  - simpl. rewrite indices_seq, map_map. f_equal.
    apply map_ext. intros k.
    now replace (2 + k * 2) with (2 + 2 * k) by lia;
      replace (2 + 2 * k + 1) with (3 + 2 * k) by lia.
  - intros i acc Hi. rewrite indices_seq in Hi.
    apply in_map_iff in Hi. destruct Hi as (k & <- & Hk).
    apply in_seq in Hk. destruct (Hconv k) as [Hid Hx]; [lia |].
    unfold contact_body.
    replace (2 + k * 2) with (2 + 2 * k) by lia.
    replace (2 + 2 * k + 1) with (3 + 2 * k) by lia.
    rewrite (stoi_at_Some measurement (2 + 2 * k) _ ltac:(lia) Hid). cbn [bind].
    rewrite (stod_at_Some measurement (3 + 2 * k) _ ltac:(lia) Hx). reflexivity.
Qed.

Lemma handle_CONTACT_ok (measurement : list string) (st : state) (n : nat)
    (tv : float) (ints : nat -> Z) (vals : nat -> float) :
  length measurement = 2 + 2 * n ->
  (Z.of_nat (length measurement) <= INT_MAX)%Z ->
  stod (token measurement 1) = Some tv ->
  (forall k, k < n ->
     stoi (token measurement (2 + 2 * k)) = Some (ints (2 + 2 * k)) /\
     stod (token measurement (3 + 2 * k)) = Some (vals (3 + 2 * k))) ->
  handle_CONTACT measurement st
  = Ok (State tv (t_prev st) (imu_measurement st) (imu_measurement_prev st)
              (filter_calls st
               ++ [setContacts
                     (map (fun k => (ints (2 + 2 * k),
                                     bool_of_double (vals (3 + 2 * k))))
                          (seq 0 n))])).
Proof.
  intros Hlen Hmax Ht Hconv. unfold handle_CONTACT.
  rewrite size_minus_2_small by (unfold SIZE_MAX, INT_MAX in *; lia).
  replace (Z.of_nat (length measurement) - 2)%Z with (Z.of_nat n * 2)%Z by lia.
  rewrite Z.mod_mul by lia. simpl.
  rewrite (stod_at_Some _ _ tv) by (assumption || lia). simpl.
  rewrite (contact_loop_ok measurement n ints vals) by assumption.
  reflexivity.
Qed.

Lemma handle_CONTACT_odd (measurement : list string) (st : state) :
  Nat.Odd (length measurement) ->
  handle_CONTACT measurement st = Abort AssertionFailed.
Proof.
  intros [h Hh]. unfold handle_CONTACT, size_minus_2.
  rewrite Z.mod_mod_divide by (exists (2 ^ 63)%Z; reflexivity).
  replace (Z.of_nat (length measurement) - 2)%Z
    with (1 + (Z.of_nat h - 1) * 2)%Z by lia.
  rewrite Z.mod_add by lia. reflexivity.
Qed.

Lemma handle_CONTACT_inv (measurement : list string) (st st' : state) :
  handle_CONTACT measurement st = Ok st' ->
  exists tv contacts,
    stod (token measurement 1) = Some tv /\
    st' = State tv (t_prev st) (imu_measurement st) (imu_measurement_prev st)
                (filter_calls st ++ [setContacts contacts]).
Proof.
  unfold handle_CONTACT. intros H. bind_inv H.
  apply stod_at_Ok in E0. destruct E0 as [_ E0].
  inversion H. exists x0, x1. split; [assumption | reflexivity].
Qed.


Lemma kinematic_body_ok (measurement : list string) (i : nat)
    (H Cov : Eigen.Matrix) (ms : list (Z * Eigen.Matrix * Eigen.Matrix))
    (ints : nat -> Z) (v : nat -> float) :
  affine H -> dims 6 6 Cov ->
  i + 44 <= length measurement ->
  stoi (token measurement i) = Some (ints i) ->
  (forall o, 1 <= o < 44 -> stod (token measurement (i + o)) = Some (v (i + o))) ->
  kinematic_body measurement i (H, Cov, ms)
  = Ok (snd (fst (observation ints v i)), snd (observation ints v i),
        ms ++ [observation ints v i]).
Proof.
  intros HH HCov Hlen Hid Hv. unfold kinematic_body. cbv beta iota.
  rewrite (stoi_at_Some measurement i _ ltac:(lia) Hid). cbn [bind].
  do 7 (rewrite (stod_at_Some measurement (i + _) (v _)) by (try apply Hv; lia);
        cbn [bind]).
  cbv zeta. rewrite set_block_pose by assumption.
  rewrite (fill_Cov_overwrites measurement i Cov v)
    by (assumption || (intros; apply Hv; lia)).
  reflexivity.
Qed.

Lemma kinematic_loop_ok (measurement : list string) (ints : nat -> Z)
    (v : nat -> float) :
  forall l H Cov ms,
    affine H -> dims 6 6 Cov ->
    (forall i, In i l ->
       i + 44 <= length measurement /\
       stoi (token measurement i) = Some (ints i) /\
       forall o, 1 <= o < 44 ->
                 stod (token measurement (i + o)) = Some (v (i + o))) ->
    exists H' Cov',
      foldM (fun s i => kinematic_body measurement i s) l (H, Cov, ms)
      = Ok (H', Cov', ms ++ map (observation ints v) l).
Proof.
  induction l as [| i l IH]; intros H Cov ms HH HCov Hconv; cbn [foldM map].
  - exists H, Cov. now rewrite app_nil_r.
  - destruct (Hconv i) as (Hlen & Hid & Hv); [now left |].
    rewrite (kinematic_body_ok measurement i H Cov ms ints v) by assumption.
    cbn [bind].
    destruct (IH (snd (fst (observation ints v i))) (snd (observation ints v i))
                (ms ++ [observation ints v i])) as (H' & Cov' & E).
    + apply affine_homogeneous_transform.
    + apply dims_row_major.
    + intros i' Hi'. apply Hconv. now right.
    + exists H', Cov'. rewrite E. now rewrite <- app_assoc.
Qed.

Lemma handle_KINEMATIC_ok (measurement : list string) (st : state) (n : nat)
    (tv : float) (ints : nat -> Z) (v : nat -> float) :
  length measurement = 2 + 44 * n ->
  (Z.of_nat (length measurement) <= INT_MAX)%Z ->
  stod (token measurement 1) = Some tv ->
  (forall e, e < n ->
     stoi (token measurement (2 + 44 * e)) = Some (ints (2 + 44 * e)) /\
     forall o, 1 <= o < 44 ->
       stod (token measurement (2 + 44 * e + o)) = Some (v (2 + 44 * e + o))) ->
  handle_KINEMATIC measurement st
  = Ok (State tv (t_prev st) (imu_measurement st) (imu_measurement_prev st)
              (filter_calls st
               ++ [CorrectKinematics
                     (map (fun e => observation ints v (2 + 44 * e)) (seq 0 n))])).
Proof.
  intros Hlen Hmax Ht Hconv. unfold handle_KINEMATIC.
  rewrite size_minus_2_small by (unfold SIZE_MAX, INT_MAX in *; lia).
  replace (Z.of_nat (length measurement) - 2)%Z with (Z.of_nat n * 44)%Z by lia.
  rewrite Z.mod_mul by lia. simpl.
  rewrite (stod_at_Some _ _ tv) by (assumption || lia). simpl.
  rewrite (for_loop_counted _ n) by lia.
  destruct (kinematic_loop_ok measurement ints v (indices 2 44 n)
              Eigen.Identity4 Eigen.Uninitialized6 [])
    as (H' & Cov' & E).
  - apply affine_Identity4.
  - apply dims_Uninitialized6.
  - intros i Hi. rewrite indices_seq in Hi.
    apply in_map_iff in Hi. destruct Hi as (e & <- & He).
    apply in_seq in He. replace (2 + e * 44) with (2 + 44 * e) by lia.
    destruct (Hconv e) as [Hid Hv]; [lia |]. repeat split; (assumption || lia).
  - rewrite E. cbn [bind snd app]. unfold invoke, set_t.
    cbn [t t_prev imu_measurement imu_measurement_prev filter_calls].
    do 5 f_equal.
    rewrite indices_seq, map_map. apply map_ext. intros e.
    now replace (2 + e * 44) with (2 + 44 * e) by lia.
Qed.

Lemma handle_KINEMATIC_inv (measurement : list string) (st st' : state) :
  handle_KINEMATIC measurement st = Ok st' ->
  exists tv measured_kinematics,
    stod (token measurement 1) = Some tv /\
    st' = State tv (t_prev st) (imu_measurement st) (imu_measurement_prev st)
                (filter_calls st ++ [CorrectKinematics measured_kinematics]).
Proof.
  unfold handle_KINEMATIC. intros H. bind_inv H.
  apply stod_at_Ok in E0. destruct E0 as [_ E0].
  inversion H. exists x0, (snd x1). split; [assumption | reflexivity].
Qed.

(** ** One iteration *)

Lemma dispatch_IMU (line : string) (st : state) :
  tag line = "IMU" -> dispatch (split line) st = handle_IMU (split line) st.
Proof. intros E. unfold dispatch. rewrite at_first, E. reflexivity. Qed.

Lemma dispatch_CONTACT (line : string) (st : state) :
  tag line = "CONTACT" ->
  dispatch (split line) st = handle_CONTACT (split line) st.
Proof. intros E. unfold dispatch. rewrite at_first, E. reflexivity. Qed.

Lemma dispatch_KINEMATIC (line : string) (st : state) :
  tag line = "KINEMATIC" ->
  dispatch (split line) st = handle_KINEMATIC (split line) st.
Proof. intros E. unfold dispatch. rewrite at_first, E. reflexivity. Qed.

Lemma dispatch_unrecognised (line : string) (st : state) :
  ~ recognised (tag line) -> dispatch (split line) st = Ok st.
Proof.
  intros Hn. unfold dispatch. rewrite at_first. cbn [bind].
  unfold recognised in Hn.
  destruct (String.eqb_spec (tag line) "IMU"); [tauto |].
  destruct (String.eqb_spec (tag line) "CONTACT"); [tauto |].
  destruct (String.eqb_spec (tag line) "KINEMATIC"); [tauto |].
  reflexivity.
Qed.

Lemma loop_body_Ok (line : string) (st st' : state) :
  loop_body line st = Ok st' ->
  exists st1, dispatch (split line) st = Ok st1 /\ st' = store_previous st1.
Proof.
  unfold loop_body. intros H. apply bind_Ok in H.
  destruct H as (st1 & E & H). inversion H. eauto.
Qed.

Lemma store_previous_synced (st : state) :
  synced st -> store_previous st = st.
Proof.
  intros [Ht Hm]. destruct st. simpl in *. subst. reflexivity.
Qed.

Lemma main_loop_synced (lines : list string) :
  forall st0 st, synced st0 -> main_loop lines st0 = Ok st -> synced st.
Proof.
  induction lines as [| line rest IH]; intros st0 st H0 H; simpl in H.
  - inversion H. now subst.
  - apply bind_Ok in H. destruct H as (st1 & E & H).
    apply loop_body_Ok in E. destruct E as (st2 & _ & ->).
    apply (IH (store_previous st2) st); [split; reflexivity | exact H].
Qed.

Lemma reachable_synced (st : state) : reachable st -> synced st.
Proof.
  intros [lines H]. apply (main_loop_synced lines initial st); [| exact H].
  split; reflexivity.
Qed.


(** ** The temporal gate and the IMU branch *)

(** C1: for an IMU record the loop calls [Propagate] exactly when
    [dt = t - t_prev] satisfies [1e-6 < dt < 1], where [t] is the timestamp
    read from the record; the call list is otherwise left as it was, and
    the gate is closed at [dt = 0], [dt = 1e-6] and [dt = 1]. *)
Theorem imu_propagate_iff_gate (line : string) (st st' : state) :
  tag line = "IMU" ->
  loop_body line st = Ok st' ->
  let dt := (t st' - t_prev st)%float in
  stod (token (split line) 1) = Some (t st') /\
  (gate dt = true <-> (1e-6 <? dt)%float = true /\ (dt <? 1)%float = true) /\
  (gate dt = true ->
   filter_calls st' = filter_calls st ++ [Propagate (imu_measurement_prev st) dt]) /\
  (gate dt = false -> filter_calls st' = filter_calls st) /\
  gate 0 = false /\ gate 1e-6 = false /\ gate 1 = false.
Proof.
  intros Htag H dt. apply loop_body_Ok in H. destruct H as (st1 & E & ->).
  rewrite dispatch_IMU in E by assumption.
  apply handle_IMU_inv in E.
  destruct E as (tv & v2 & v3 & v4 & v5 & v6 & v7 & _ & Ht & _ & _ & _ & _ & _ & _ & ->).
  subst dt. cbn [store_previous t t_prev filter_calls imu_measurement_prev].
  split; [assumption |]. split; [apply andb_true_iff |].
  split; [intros ->; reflexivity |].
  split; [intros ->; apply app_nil_r |].
  repeat split; reflexivity.
Qed.

(** C2: when an IMU record is admitted, [Propagate] receives the sample
    cached by the previous iteration ([imu_measurement_prev], the zero
    vector at the start) together with the current [dt], not the sample on
    the current line; and the sample on the current line becomes the cached
    one whether or not the record was admitted. *)
Theorem imu_propagate_uses_cached_sample (line : string) (st : state)
    (tv : float) (v : nat -> float) :
  tag line = "IMU" ->
  length (split line) = 2 + 6 ->
  stod (token (split line) 1) = Some tv ->
  (forall i, 2 <= i < 8 -> stod (token (split line) i) = Some (v i)) ->
  exists st',
    loop_body line st = Ok st' /\
    (gate (tv - t_prev st) = true ->
     filter_calls st'
     = filter_calls st ++ [Propagate (imu_measurement_prev st) (tv - t_prev st)]) /\
    imu_measurement_prev st' = [v 2; v 3; v 4; v 5; v 6; v 7] /\
    imu_measurement_prev initial = Eigen.Zero 6.
Proof.
  intros Htag Hlen Ht Hv. unfold loop_body.
  rewrite dispatch_IMU by assumption.
  rewrite (handle_IMU_ok _ st tv v) by assumption.
  cbn [bind]. eexists. split; [reflexivity |].
  cbn [store_previous t t_prev filter_calls imu_measurement imu_measurement_prev].
  split; [intros ->; reflexivity |]. split; reflexivity.
Qed.

(** C3: an IMU record the gate rejects raises no error and reaches the
    estimator in no way, yet its timestamp and its sample replace the
    cached ones. *)
Theorem gate_rejection_is_silent (line : string) (st : state)
    (tv : float) (v : nat -> float) :
  tag line = "IMU" ->
  length (split line) = 2 + 6 ->
  stod (token (split line) 1) = Some tv ->
  (forall i, 2 <= i < 8 -> stod (token (split line) i) = Some (v i)) ->
  gate (tv - t_prev st) = false ->
  exists st',
    loop_body line st = Ok st' /\
    filter_calls st' = filter_calls st /\
    t_prev st' = tv /\
    imu_measurement_prev st' = [v 2; v 3; v 4; v 5; v 6; v 7].
Proof.
  intros Htag Hlen Ht Hv Hgate. unfold loop_body.
  rewrite dispatch_IMU by assumption.
  rewrite (handle_IMU_ok _ st tv v) by assumption.
  rewrite Hgate, app_nil_r. cbn [bind]. eexists. split; [reflexivity |].
  repeat split; reflexivity.
Qed.

(** C4 (amended): after every iteration [t_prev] equals [t]; for an IMU,
    CONTACT or KINEMATIC record [t] is the timestamp read from token 1 of
    that record, while for an unrecognised record nothing is read: [t],
    the current sample and the call list keep their values, so [t_prev] is
    the timestamp of the last recognised record. *)
Theorem previous_timestamp_after_iteration (line : string) (st st' : state) :
  loop_body line st = Ok st' ->
  t_prev st' = t st' /\
  (recognised (tag line) -> stod (token (split line) 1) = Some (t st')) /\
  (~ recognised (tag line) ->
   t st' = t st /\
   imu_measurement st' = imu_measurement st /\
   filter_calls st' = filter_calls st).
Proof.
  intros H. apply loop_body_Ok in H. destruct H as (st1 & E & ->).
  split; [reflexivity |]. split.
  - intros [Htag | [Htag | Htag]].
    + rewrite dispatch_IMU in E by assumption. apply handle_IMU_inv in E.
      destruct E as (tv & v2 & v3 & v4 & v5 & v6 & v7 & _ & Ht & _ & _ & _ & _ & _ & _ & ->).
      exact Ht.
    + rewrite dispatch_CONTACT in E by assumption. apply handle_CONTACT_inv in E.
      destruct E as (tv & contacts & Ht & ->). exact Ht.
    + rewrite dispatch_KINEMATIC in E by assumption.
      apply handle_KINEMATIC_inv in E.
      destruct E as (tv & obs & Ht & ->). exact Ht.
  - intros Hn. rewrite dispatch_unrecognised in E by assumption.
    inversion E. repeat split; reflexivity.
Qed.

(** C5: an IMU line is accepted only with exactly 6 tokens after the tag
    and the timestamp; these six are then stored in order, the first three
    being the angular velocity and the last three the linear acceleration;
    with any other number of tokens the assertion on the count fails. *)
Theorem imu_payload_length_six (line : string) (st : state) :
  tag line = "IMU" ->
  (Z.of_nat (length (split line)) <= SIZE_MAX)%Z ->
  (length (split line) <> 2 + 6 -> loop_body line st = Abort AssertionFailed) /\
  (forall st',
     loop_body line st = Ok st' ->
     length (split line) = 2 + 6 /\
     exists v2 v3 v4 v5 v6 v7,
       stod (token (split line) 2) = Some v2 /\
       stod (token (split line) 3) = Some v3 /\
       stod (token (split line) 4) = Some v4 /\
       stod (token (split line) 5) = Some v5 /\
       stod (token (split line) 6) = Some v6 /\
       stod (token (split line) 7) = Some v7 /\
       imu_measurement st' = [v2; v3; v4; v5; v6; v7] /\
       angular_velocity (imu_measurement st') = [v2; v3; v4] /\
       linear_acceleration (imu_measurement st') = [v5; v6; v7]) /\
  (length (split line) = 2 + 6 ->
   forall tv v,
     stod (token (split line) 1) = Some tv ->
     (forall i, 2 <= i < 8 -> stod (token (split line) i) = Some (v i)) ->
     exists st',
       loop_body line st = Ok st' /\
       imu_measurement st' = [v 2; v 3; v 4; v 5; v 6; v 7]).
Proof.
  intros Htag Hmax.
  assert (Hbad : length (split line) <> 2 + 6 ->
                 loop_body line st = Abort AssertionFailed).
  { intros Hlen. unfold loop_body. rewrite dispatch_IMU by assumption.
    now rewrite handle_IMU_bad_length. }
  split; [exact Hbad |]. split.
  - intros st' H. split.
    + destruct (Nat.eq_dec (length (split line)) (2 + 6)) as [E | E];
        [assumption |]. rewrite (Hbad E) in H. discriminate.
    + apply loop_body_Ok in H. destruct H as (st1 & E & ->).
      rewrite dispatch_IMU in E by assumption. apply handle_IMU_inv in E.
      destruct E as (tv & v2 & v3 & v4 & v5 & v6 & v7 & _ & _ & E2 & E3 & E4 & E5 & E6 & E7 & ->).
      exists v2, v3, v4, v5, v6, v7. repeat split; assumption || reflexivity.
  - intros Hlen tv v Ht Hv. unfold loop_body.
    rewrite dispatch_IMU by assumption.
    rewrite (handle_IMU_ok _ st tv v) by assumption.
    cbn [bind]. eexists. split; reflexivity.
Qed.


(** ** The CONTACT branch *)

Lemma nth_error_map_seq {A : Type} (f : nat -> A) (n k : nat) :
  k < n -> nth_error (map f (seq 0 n)) k = Some (f k).
Proof.
  intros Hk. rewrite nth_error_map, nth_error_seq.
  apply Nat.ltb_lt in Hk. now rewrite Hk.
Qed.

(** C6: a CONTACT line with [2 * n] tokens after the timestamp yields [n]
    pairs (id, indicator), pair [k] coming from tokens [2 + 2 * k] and
    [3 + 2 * k]; the list is handed over in one [setContacts] call; with an
    odd number of such tokens the assertion on the count fails. *)
Theorem contact_pairs_forwarded (line : string) (st : state) (n : nat) :
  tag line = "CONTACT" ->
  (length (split line) = 2 + 2 * n ->
   (Z.of_nat (length (split line)) <= INT_MAX)%Z ->
   forall tv ints vals,
     stod (token (split line) 1) = Some tv ->
     (forall k, k < n ->
        stoi (token (split line) (2 + 2 * k)) = Some (ints (2 + 2 * k)) /\
        stod (token (split line) (3 + 2 * k)) = Some (vals (3 + 2 * k))) ->
     exists st' contacts,
       loop_body line st = Ok st' /\
       filter_calls st' = filter_calls st ++ [setContacts contacts] /\
       length contacts = n /\
       forall k, k < n ->
         nth_error contacts k
         = Some (ints (2 + 2 * k), bool_of_double (vals (3 + 2 * k)))) /\
  (length (split line) = 2 + (2 * n + 1) ->
   loop_body line st = Abort AssertionFailed).
Proof.
  intros Htag. split.
  - intros Hlen Hmax tv ints vals Ht Hconv. unfold loop_body.
    rewrite dispatch_CONTACT by assumption.
    rewrite (handle_CONTACT_ok _ st n tv ints vals) by assumption.
    cbn [bind]. do 2 eexists. split; [reflexivity |].
    cbn [store_previous filter_calls]. split; [reflexivity |].
    split; [now rewrite length_map, length_seq |].
    intros k Hk.
    now apply (nth_error_map_seq
                 (fun k => (ints (2 + 2 * k), bool_of_double (vals (3 + 2 * k))))).
  - intros Hlen. unfold loop_body. rewrite dispatch_CONTACT by assumption.
    rewrite handle_CONTACT_odd; [reflexivity |].
    exists (n + 1). lia.
Qed.

(** C9: in every forwarded pair the indicator is [true] exactly when the
    double read from the indicator token does not compare equal to zero;
    [2.5] and [-1] count as contact, [0] does not. *)
Theorem contact_indicator_nonzero (line : string) (st : state) (n : nat)
    (tv : float) (ints : nat -> Z) (vals : nat -> float) :
  tag line = "CONTACT" ->
  length (split line) = 2 + 2 * n ->
  (Z.of_nat (length (split line)) <= INT_MAX)%Z ->
  stod (token (split line) 1) = Some tv ->
  (forall k, k < n ->
     stoi (token (split line) (2 + 2 * k)) = Some (ints (2 + 2 * k)) /\
     stod (token (split line) (3 + 2 * k)) = Some (vals (3 + 2 * k))) ->
  exists st' contacts,
    loop_body line st = Ok st' /\
    filter_calls st' = filter_calls st ++ [setContacts contacts] /\
    (forall k, k < n ->
       exists id indicator,
         nth_error contacts k = Some (id, indicator) /\
         (indicator = true <-> PrimFloat.eqb (vals (3 + 2 * k)) 0 = false)) /\
    bool_of_double 2.5 = true /\
    bool_of_double (-1) = true /\
    bool_of_double 0 = false.
Proof.
  intros Htag Hlen Hmax Ht Hconv. unfold loop_body.
  rewrite dispatch_CONTACT by assumption.
  rewrite (handle_CONTACT_ok _ st n tv ints vals) by assumption.
  cbn [bind]. do 2 eexists. split; [reflexivity |].
  cbn [store_previous filter_calls]. split; [reflexivity |]. split.
  - intros k Hk. do 2 eexists.
    split; [rewrite (nth_error_map_seq _ n k Hk); reflexivity |].
    unfold bool_of_double. apply negb_true_iff.
  - repeat split; reflexivity.
Qed.

(** ** The KINEMATIC branch *)






Section ExactArithmetic.

Import Reals Lra.


End ExactArithmetic.

Section KinematicObservations.

Import Rdefinitions.


End KinematicObservations.

(** C8: in every observation the covariance has, at row [j] and column
    [k], the double read from the token at offset [8 + j * 6 + k] from the
    start of the entry; when the 36 covariance tokens read as 0, 1, ..., 35
    the coefficient at row 2, column 3 is 15. *)
Theorem covariance_row_major (line : string) (st : state) (n : nat)
    (tv : float) (ints : nat -> Z) (v : nat -> float) :
  tag line = "KINEMATIC" ->
  length (split line) = 2 + 44 * n ->
  (Z.of_nat (length (split line)) <= INT_MAX)%Z ->
  stod (token (split line) 1) = Some tv ->
  (forall e, e < n ->
     stoi (token (split line) (2 + 44 * e)) = Some (ints (2 + 44 * e)) /\
     forall o, 1 <= o < 44 ->
       stod (token (split line) (2 + 44 * e + o)) = Some (v (2 + 44 * e + o))) ->
  exists st' measured_kinematics,
    loop_body line st = Ok st' /\
    filter_calls st' = filter_calls st ++ [CorrectKinematics measured_kinematics] /\
    forall e, e < n ->
      let i := 2 + 44 * e in
      exists id H Cov,
        nth_error measured_kinematics e = Some (id, H, Cov) /\
        (forall j k, j < 6 -> k < 6 ->
           Eigen.coeff Cov j k = v (i + 8 + j * 6 + k)) /\
        ((forall o, o < 36 -> v (i + 8 + o) = float_of_nat o) ->
         Eigen.coeff Cov 2 3 = 15%float).
Proof.
  intros Htag Hlen Hmax Ht Hconv. unfold loop_body.
  rewrite dispatch_KINEMATIC by assumption.
  rewrite (handle_KINEMATIC_ok _ st n tv ints v) by assumption.
  cbn [bind]. do 2 eexists. split; [reflexivity |].
  cbn [store_previous filter_calls]. split; [reflexivity |].
  intros e He. do 3 eexists.
  split; [rewrite (nth_error_map_seq _ n e He); reflexivity |]. split.
  - intros j k Hj Hk. now apply coeff_row_major.
  - intros Hseq. rewrite coeff_row_major by lia.
    replace (2 + 44 * e + 8 + 2 * 6 + 3) with (2 + 44 * e + 8 + 15) by lia.
    now rewrite Hseq by lia.
Qed.

(** ** Lines in general *)

(** C10: splitting any line, the empty one included, gives at least one
    token, so that [measurement[0]] is always inside the vector; and a line
    whose first token is none of IMU, CONTACT, KINEMATIC calls nothing on
    the estimator and leaves both caches with the values they had. *)
Theorem first_token_and_unrecognised_line (line : string) (st : state) :
  reachable st ->
  1 <= length (split line) /\
  at_ (split line) 0 = Ok (tag line) /\
  (~ recognised (tag line) ->
   exists st',
     loop_body line st = Ok st' /\
     filter_calls st' = filter_calls st /\
     t_prev st' = t_prev st /\
     imu_measurement_prev st' = imu_measurement_prev st).
Proof.
  intros Hreach. split; [| split].
  - pose proof (split_nonempty line) as H.
    destruct (split line); [congruence | simpl; lia].
  - apply at_first.
  - intros Hn. unfold loop_body.
    rewrite dispatch_unrecognised by assumption. cbn [bind].
    rewrite store_previous_synced by now apply reachable_synced.
    exists st. repeat split; reflexivity.
Qed.

(** ** More on splitting *)

Lemma split_cons (line : string) : exists tok toks, split line = tok :: toks.
Proof.
  pose proof (split_nonempty line) as H.
  destruct (split line) as [| tok toks]; [congruence | eauto].
Qed.

(** A space cuts the line in two independent parts. *)
Lemma split_at_space (l1 l2 : string) :
  split (l1 ++ String " " l2)%string = split l1 ++ split l2.
Proof.
  induction l1 as [| c r IH]; simpl; [reflexivity |].
  destruct (is_space c); [now rewrite IH |].
  rewrite IH. destruct (split_cons r) as (tok & toks & ->). reflexivity.
Qed.

Lemma split_space_free (tok : string) :
  space_free tok = true -> split tok = [tok].
Proof.
  induction tok as [| c r IH]; simpl; [reflexivity |].
  intros H. apply andb_prop in H as [Hc Hr].
  apply negb_true_iff in Hc. rewrite Hc, (IH Hr). reflexivity.
Qed.

Lemma tokens_space_free (line : string) :
  Forall (fun tok => space_free tok = true) (split line).
Proof.
  induction line as [| c r IH]; simpl; [repeat constructor |].
  destruct (is_space c) eqn:Ec; [constructor; [reflexivity | exact IH] |].
  destruct (split_cons r) as (tok & toks & E). rewrite E in *.
  inversion IH; subst. constructor; [| assumption]. simpl. now rewrite Ec.
Qed.

Lemma concat_cons_cons (x y : string) (l : list string) :
  String.concat " " (x :: y :: l)
  = (x ++ String " " (String.concat " " (y :: l)))%string.
Proof. reflexivity. Qed.

Lemma concat_split (line : string) : String.concat " " (split line) = line.
Proof.
  induction line as [| c r IH]; [reflexivity |]. cbn [split].
  destruct (split_cons r) as (tok & toks & E). rewrite E in *.
  destruct (is_space c) eqn:Ec.
  - apply Ascii.eqb_eq in Ec. subst c. rewrite concat_cons_cons, IH. reflexivity.
  - destruct toks as [| tok' toks].
    + simpl in *. now subst.
    + rewrite concat_cons_cons in *. rewrite <- IH. reflexivity.
Qed.

Lemma length_split (line : string) :
  length (split line) = 1 + count_spaces line.
Proof.
  induction line as [| c r IH]; [reflexivity |]. cbn [split count_spaces].
  destruct (is_space c); [simpl; now rewrite IH |].
  destruct (split_cons r) as (tok & toks & E). rewrite E in *. exact IH.
Qed.

(** X1: writing the tokens of a line back with one space between
    neighbours gives the line again; no token contains a space, and there is
    one token more than there are spaces. *)
Theorem split_then_join (line : string) :
  String.concat " " (split line) = line /\
  Forall (fun tok => space_free tok = true) (split line) /\
  length (split line) = 1 + count_spaces line.
Proof.
  split; [apply concat_split |].
  split; [apply tokens_space_free | apply length_split].
Qed.

(** X2: a non-empty list of space-free tokens, written with one space
    between neighbours, splits into exactly these tokens (empty tokens
    included). *)
Theorem join_then_split (toks : list string) :
  toks <> [] ->
  Forall (fun tok => space_free tok = true) toks ->
  split (String.concat " " toks) = toks.
Proof.
  induction toks as [| x l IH]; [congruence |]. intros _ Hfree.
  inversion Hfree as [| ? ? Hx Hl]; subst.
  destruct l as [| y l]; [now apply split_space_free |].
  rewrite concat_cons_cons, split_at_space, (split_space_free x Hx).
  rewrite IH by (assumption || discriminate). reflexivity.
Qed.

(** ** Ways a line can stop the program *)

Lemma bind_Abort {A B : Type} (c : result A) (k : A -> result B) (e : failure) :
  bind c k = Abort e -> c = Abort e \/ exists a, c = Ok a /\ k a = Abort e.
Proof.
  destruct c as [a | e']; simpl; intros H; [right; eauto | left; congruence].
Qed.

Lemma stod_at_token (measurement : list string) (i : nat) :
  i < length measurement ->
  stod_at measurement i = throwing (stod (token measurement i)).
Proof. intros Hi. unfold stod_at. now rewrite at_token. Qed.

Lemma stoi_at_token (measurement : list string) (i : nat) :
  i < length measurement ->
  stoi_at measurement i = throwing (stoi (token measurement i)).
Proof. intros Hi. unfold stoi_at. now rewrite at_token. Qed.

Lemma throwing_Abort {A : Type} (o : option A) (e : failure) :
  throwing o = Abort e -> e = ConversionThrown.
Proof. destruct o; simpl; intros H; [discriminate | congruence]. Qed.

Lemma stod_at_Abort (measurement : list string) (i : nat) (e : failure) :
  stod_at measurement i = Abort e -> i < length measurement ->
  e = ConversionThrown.
Proof.
  intros H Hi. rewrite stod_at_token in H by assumption.
  now apply throwing_Abort in H.
Qed.

Lemma stoi_at_Abort (measurement : list string) (i : nat) (e : failure) :
  stoi_at measurement i = Abort e -> i < length measurement ->
  e = ConversionThrown.
Proof.
  intros H Hi. rewrite stoi_at_token in H by assumption.
  now apply throwing_Abort in H.
Qed.

Lemma foldM_Abort {A S : Type} (body : S -> A -> result S) (e : failure) :
  forall l s, foldM body l s = Abort e ->
              exists a s', In a l /\ body s' a = Abort e.
Proof.
  induction l as [| a l IH]; intros s H; simpl in H; [discriminate |].
  apply bind_Abort in H. destruct H as [H | (s1 & _ & H)].
  - exists a, s. split; [now left | exact H].
  - destruct (IH s1 H) as (a' & s' & Hin & Hb).
    exists a', s'. split; [now right | exact Hb].
Qed.

(** Once a conversion inside a chain of reads has stopped the chain, the
    failure is the one of the conversion. *)
Ltac conversion_stops H :=
  repeat (cbv zeta in H; apply bind_Abort in H;
          destruct H as [H | (? & _ & H)];
          [ first [ apply stod_at_Abort in H | apply stoi_at_Abort in H ];
            [exact H | lia] |]).

Lemma fill_Cov_Abort (measurement : list string) (i : nat) (Cov : Eigen.Matrix)
    (e : failure) :
  i + 44 <= length measurement ->
  fill_Cov measurement i Cov = Abort e -> e = ConversionThrown.
Proof.
  intros Hlen H. unfold fill_Cov in H.
  apply foldM_Abort in H. destruct H as (j & C & Hj & H).
  apply foldM_Abort in H. destruct H as (k & C' & Hk & H).
  apply in_seq in Hj. apply in_seq in Hk.
  conversion_stops H. discriminate H.
Qed.

Lemma contact_body_Abort (measurement : list string) (i : nat)
    (contacts : list (Z * bool)) (e : failure) :
  i + 2 <= length measurement ->
  contact_body measurement i contacts = Abort e -> e = ConversionThrown.
Proof.
  intros Hlen H. unfold contact_body in H. conversion_stops H. discriminate H.
Qed.

Lemma kinematic_body_Abort (measurement : list string) (i : nat)
    (s : kinematic_state) (e : failure) :
  i + 44 <= length measurement ->
  kinematic_body measurement i s = Abort e -> e = ConversionThrown.
Proof.
  intros Hlen H. destruct s as [[H0 Cov] ms]. unfold kinematic_body in H.
  cbv beta iota in H. conversion_stops H.
  cbv zeta in H. apply bind_Abort in H. destruct H as [H | (? & _ & H)].
  - now apply fill_Cov_Abort in H.
  - discriminate H.
Qed.

(** What a passed assertion says about the number of tokens. *)
Lemma assert_IMU_length (measurement : list string) :
  (Z.of_nat (length measurement) <= SIZE_MAX)%Z ->
  size_minus_2 measurement = 6%Z -> length measurement = 8.
Proof.
  intros Hmax H. unfold size_minus_2, SIZE_MAX in *.
  destruct (le_lt_dec 2 (length measurement)).
  - rewrite Z.mod_small in H by lia. lia.
  - replace (Z.of_nat (length measurement) - 2)%Z
      with (-1 * 2 ^ 64 + (2 ^ 64 + Z.of_nat (length measurement) - 2))%Z in H by lia.
    rewrite Z.add_comm, Z.mod_add in H by lia.
    rewrite Z.mod_small in H by lia. lia.
Qed.

Lemma size_minus_2_tiny (measurement : list string) :
  length measurement < 2 ->
  size_minus_2 measurement = (2 ^ 64 - 2 + Z.of_nat (length measurement))%Z.
Proof.
  intros H. unfold size_minus_2.
  replace (Z.of_nat (length measurement) - 2)%Z
    with (2 ^ 64 - 2 + Z.of_nat (length measurement) + -1 * 2 ^ 64)%Z by lia.
  rewrite Z.mod_add by lia. apply Z.mod_small. lia.
Qed.

Lemma assert_CONTACT_length (measurement : list string) :
  1 <= length measurement ->
  (Z.of_nat (length measurement) <= SIZE_MAX)%Z ->
  (size_minus_2 measurement mod 2 = 0)%Z ->
  exists n, length measurement = 2 + 2 * n.
Proof.
  intros H1 Hmax H.
  destruct (le_lt_dec 2 (length measurement)) as [H2 | H2].
  - rewrite size_minus_2_small in H by assumption.
    exists (Z.to_nat ((Z.of_nat (length measurement) - 2) / 2)).
    pose proof (Z.div_mod (Z.of_nat (length measurement) - 2) 2 ltac:(lia)) as D.
    rewrite H in D.
    assert (0 <= (Z.of_nat (length measurement) - 2) / 2)%Z
      by (apply Z.div_pos; lia).
    lia.
  - rewrite size_minus_2_tiny in H by assumption.
    replace (length measurement) with 1 in H by lia.
    vm_compute in H. discriminate H.
Qed.

Lemma assert_KINEMATIC_length (measurement : list string) :
  (Z.of_nat (length measurement) <= SIZE_MAX)%Z ->
  (size_minus_2 measurement mod 44 = 0)%Z ->
  exists n, length measurement = 2 + 44 * n.
Proof.
  intros Hmax H.
  destruct (le_lt_dec 2 (length measurement)) as [H2 | H2].
  - rewrite size_minus_2_small in H by assumption.
    exists (Z.to_nat ((Z.of_nat (length measurement) - 2) / 44)).
    pose proof (Z.div_mod (Z.of_nat (length measurement) - 2) 44 ltac:(lia)) as D.
    rewrite H in D.
    assert (0 <= (Z.of_nat (length measurement) - 2) / 44)%Z
      by (apply Z.div_pos; lia).
    lia.
  - rewrite size_minus_2_tiny in H by assumption.
    destruct (length measurement) as [| [| k]]; [| | lia];
      vm_compute in H; discriminate H.
Qed.

Lemma handle_KINEMATIC_bad_length (measurement : list string) (st : state) :
  (Z.of_nat (length measurement) <= SIZE_MAX)%Z ->
  (forall n, length measurement <> 2 + 44 * n) ->
  handle_KINEMATIC measurement st = Abort AssertionFailed.
Proof.
  intros Hmax Hlen. unfold handle_KINEMATIC.
  destruct (size_minus_2 measurement mod 44 =? 0)%Z eqn:E; [| reflexivity].
  apply Z.eqb_eq in E.
  destruct (assert_KINEMATIC_length measurement Hmax E) as (n & Hn).
  now destruct (Hlen n).
Qed.

Lemma handle_IMU_Abort (measurement : list string) (st : state) (e : failure) :
  (Z.of_nat (length measurement) <= SIZE_MAX)%Z ->
  handle_IMU measurement st = Abort e ->
  e = AssertionFailed \/ e = ConversionThrown.
Proof.
  intros Hmax H. unfold handle_IMU in H.
  destruct (size_minus_2 measurement =? 6)%Z eqn:E; simpl in H;
    [| left; congruence].
  apply Z.eqb_eq in E. apply assert_IMU_length in E; [| assumption].
  right. conversion_stops H. cbv zeta in H.
  destruct (gate _); discriminate H.
Qed.

Lemma handle_CONTACT_Abort (measurement : list string) (st : state) (e : failure) :
  1 <= length measurement ->
  (Z.of_nat (length measurement) <= INT_MAX)%Z ->
  handle_CONTACT measurement st = Abort e ->
  e = AssertionFailed \/ e = ConversionThrown.
Proof.
  intros H1 Hmax H. unfold handle_CONTACT in H.
  destruct (size_minus_2 measurement mod 2 =? 0)%Z eqn:E; simpl in H;
    [| left; congruence].
  apply Z.eqb_eq in E.
  destruct (assert_CONTACT_length measurement H1) as (n & Hn);
    [unfold SIZE_MAX, INT_MAX in *; lia | assumption |].
  right. apply bind_Abort in H. destruct H as [H | (tv & _ & H)];
    [apply stod_at_Abort in H; [exact H | lia] |].
  cbv zeta in H. apply bind_Abort in H. destruct H as [H | (? & _ & H)];
    [| discriminate H].
  rewrite (for_loop_counted _ n) in H by lia.
  apply foldM_Abort in H. destruct H as (i & acc & Hi & H).
  rewrite indices_seq in Hi. apply in_map_iff in Hi.
  destruct Hi as (k & <- & Hk). apply in_seq in Hk.
  apply contact_body_Abort in H; [exact H | lia].
Qed.

Lemma handle_KINEMATIC_Abort (measurement : list string) (st : state)
    (e : failure) :
  (Z.of_nat (length measurement) <= INT_MAX)%Z ->
  handle_KINEMATIC measurement st = Abort e ->
  e = AssertionFailed \/ e = ConversionThrown.
Proof.
  intros Hmax H. unfold handle_KINEMATIC in H.
  destruct (size_minus_2 measurement mod 44 =? 0)%Z eqn:E; simpl in H;
    [| left; congruence].
  apply Z.eqb_eq in E.
  destruct (assert_KINEMATIC_length measurement) as (n & Hn);
    [unfold SIZE_MAX, INT_MAX in *; lia | assumption |].
  right. apply bind_Abort in H. destruct H as [H | (tv & _ & H)];
    [apply stod_at_Abort in H; [exact H | lia] |].
  cbv zeta in H. apply bind_Abort in H. destruct H as [H | (? & _ & H)];
    [| discriminate H].
  rewrite (for_loop_counted _ n) in H by lia.
  apply foldM_Abort in H. destruct H as (i & acc & Hi & H).
  rewrite indices_seq in Hi. apply in_map_iff in Hi.
  destruct Hi as (k & <- & Hk). apply in_seq in Hk.
  apply kinematic_body_Abort in H; [exact H | lia].
Qed.

Lemma loop_body_Abort (line : string) (st : state) (e : failure) :
  (Z.of_nat (length (split line)) <= INT_MAX)%Z ->
  loop_body line st = Abort e ->
  e = AssertionFailed \/ e = ConversionThrown.
Proof.
  intros Hmax H. unfold loop_body in H.
  apply bind_Abort in H. destruct H as [H | (? & _ & H)]; [| discriminate H].
  unfold dispatch in H. rewrite at_first in H. cbn [bind] in H.
  pose proof (length_split line) as Hlen.
  destruct (String.eqb (tag line) "IMU").
  - apply handle_IMU_Abort in H; [exact H | unfold SIZE_MAX, INT_MAX in *; lia].
  - destruct (String.eqb (tag line) "CONTACT").
    + apply handle_CONTACT_Abort in H; [exact H | lia | assumption].
    + destruct (String.eqb (tag line) "KINEMATIC"); [| discriminate H].
      now apply handle_KINEMATIC_Abort in H.
Qed.

(** X3: whatever the lines are (each with at most [INT_MAX] tokens), a run
    that stops early stops on a failed assertion or on a throwing conversion:
    no [measurement[i]] is ever read outside the vector and no loop counter
    overflows. *)
Theorem run_stops_only_on_assert_or_conversion (lines : list string)
    (st : state) (e : failure) :
  Forall (fun line => (Z.of_nat (length (split line)) <= INT_MAX)%Z) lines ->
  main_loop lines st = Abort e ->
  e = AssertionFailed \/ e = ConversionThrown.
Proof.
  intros Hall. revert st.
  induction Hall as [| line rest Hline Hrest IH]; intros st H; simpl in H;
    [discriminate H |].
  apply bind_Abort in H. destruct H as [H | (st1 & _ & H)].
  - now apply loop_body_Abort in H.
  - now apply IH in H.
Qed.

(** X4: a KINEMATIC line whose number of tokens after the timestamp is not
    a multiple of 44 (a line with the tag alone included) fails the assertion
    on the count, whatever its tokens are. *)
Theorem kinematic_payload_multiple_of_44 (line : string) (st : state) :
  tag line = "KINEMATIC" ->
  (Z.of_nat (length (split line)) <= SIZE_MAX)%Z ->
  (forall n, length (split line) <> 2 + 44 * n) ->
  loop_body line st = Abort AssertionFailed.
Proof.
  intros Htag Hmax Hlen. unfold loop_body.
  rewrite dispatch_KINEMATIC by assumption.
  now rewrite handle_KINEMATIC_bad_length.
Qed.

(** X5: an IMU line with the right number of tokens on which one of the
    seven numeric tokens does not convert stops the program with the
    exception of the conversion; nothing is propagated. *)
Theorem imu_bad_number_throws (line : string) (st : state) (i : nat) :
  tag line = "IMU" ->
  length (split line) = 2 + 6 ->
  1 <= i < 8 ->
  stod (token (split line) i) = None ->
  loop_body line st = Abort ConversionThrown.
Proof.
  intros Htag Hlen Hi Hnone. unfold loop_body.
  rewrite dispatch_IMU by assumption.
  destruct (handle_IMU (split line) st) as [st' | e] eqn:E.
  - exfalso. apply handle_IMU_inv in E.
    destruct E as (tv & v2 & v3 & v4 & v5 & v6 & v7 & _ & E1 & E2 & E3 & E4 & E5 & E6 & E7 & _).
    assert (D : i = 1 \/ i = 2 \/ i = 3 \/ i = 4 \/ i = 5 \/ i = 6 \/ i = 7) by lia.
    repeat destruct D as [D | D]; subst i; congruence.
  - cbn [bind]. f_equal.
    destruct (handle_IMU_Abort (split line) st e) as [D | D];
      [unfold SIZE_MAX; rewrite Hlen; vm_compute; discriminate | exact E | | exact D].
    subst e. exfalso. unfold handle_IMU, size_minus_2 in E. rewrite Hlen in E.
    simpl in E.
    repeat (apply bind_Abort in E; destruct E as [E | (? & _ & E)];
            [apply stod_at_Abort in E; [discriminate E | lia] |]).
    destruct (gate _); discriminate E.
Qed.

(** ** Whole runs *)

Lemma main_loop_app (l1 l2 : list string) (st : state) :
  main_loop (l1 ++ l2) st = (st1 <- main_loop l1 st ;; main_loop l2 st1).
Proof.
  revert st. induction l1 as [| line l1 IH]; intros st; simpl; [reflexivity |].
  destruct (loop_body line st) as [st1 | e]; simpl; [apply IH | reflexivity].
Qed.

Lemma loop_body_appends (line : string) (st st' : state) :
  loop_body line st = Ok st' ->
  exists cs, filter_calls st' = filter_calls st ++ cs /\ length cs <= 1.
Proof.
  intros H. apply loop_body_Ok in H. destruct H as (st1 & E & ->).
  unfold dispatch in E. rewrite at_first in E. cbn [bind] in E.
  cbn [store_previous filter_calls].
  destruct (String.eqb (tag line) "IMU").
  - apply handle_IMU_inv in E.
    destruct E as (tv & v2 & v3 & v4 & v5 & v6 & v7 & _ & _ & _ & _ & _ & _ & _ & _ & ->).
    eexists. split; [reflexivity |]. destruct (gate _); simpl; lia.
  - destruct (String.eqb (tag line) "CONTACT").
    + apply handle_CONTACT_inv in E. destruct E as (tv & cs & _ & ->).
      eexists. split; [reflexivity | simpl; lia].
    + destruct (String.eqb (tag line) "KINEMATIC").
      * apply handle_KINEMATIC_inv in E. destruct E as (tv & mk & _ & ->).
        eexists. split; [reflexivity | simpl; lia].
      * inversion E. exists []. split; [now rewrite app_nil_r | simpl; lia].
Qed.

(** X6: the call a line causes is the one of its tag: an IMU line causes
    no call or one [Propagate], a CONTACT line one [setContacts], a KINEMATIC
    line one [CorrectKinematics], any other line none; the calls made before
    stay in the log as they were. *)
Theorem line_calls_match_tag (line : string) (st st' : state) :
  loop_body line st = Ok st' ->
  (tag line = "IMU" /\
   (filter_calls st' = filter_calls st \/
    filter_calls st'
    = filter_calls st
      ++ [Propagate (imu_measurement_prev st) (t st' - t_prev st)])) \/
  (tag line = "CONTACT" /\
   exists contacts, filter_calls st' = filter_calls st ++ [setContacts contacts]) \/
  (tag line = "KINEMATIC" /\
   exists measured_kinematics,
     filter_calls st' = filter_calls st ++ [CorrectKinematics measured_kinematics]) \/
  (~ recognised (tag line) /\ filter_calls st' = filter_calls st).
Proof.
  intros H. apply loop_body_Ok in H. destruct H as (st1 & E & ->).
  unfold dispatch in E. rewrite at_first in E. cbn [bind] in E.
  cbn [store_previous filter_calls t].
  destruct (String.eqb_spec (tag line) "IMU") as [Hi | Hi].
  - left. split; [assumption |]. apply handle_IMU_inv in E.
    destruct E as (tv & v2 & v3 & v4 & v5 & v6 & v7 & _ & _ & _ & _ & _ & _ & _ & _ & ->).
    cbn [filter_calls t]. destruct (gate _); [now right | left; apply app_nil_r].
  - destruct (String.eqb_spec (tag line) "CONTACT") as [Hc | Hc].
    + right; left. split; [assumption |].
      apply handle_CONTACT_inv in E. destruct E as (tv & cs & _ & ->).
      now exists cs.
    + destruct (String.eqb_spec (tag line) "KINEMATIC") as [Hk | Hk].
      * right; right; left. split; [assumption |].
        apply handle_KINEMATIC_inv in E. destruct E as (tv & mk & _ & ->).
        now exists mk.
      * right; right; right. inversion E. subst st1.
        split; [unfold recognised; tauto | reflexivity].
Qed.

(** X7: over a whole run the log of calls only grows, and by at most one
    call per line read. *)
Theorem run_appends_at_most_one_call_per_line (lines : list string)
    (st st' : state) :
  main_loop lines st = Ok st' ->
  exists cs,
    filter_calls st' = filter_calls st ++ cs /\ length cs <= length lines.
Proof.
  revert st. induction lines as [| line rest IH]; intros st H; simpl in H.
  - inversion H. exists []. split; [now rewrite app_nil_r | simpl; lia].
  - apply bind_Ok in H. destruct H as (st1 & E & H).
    apply loop_body_appends in E. destruct E as (c1 & E1 & L1).
    apply IH in H. destruct H as (c2 & E2 & L2).
    exists (c1 ++ c2). split.
    + now rewrite E2, E1, app_assoc.
    + rewrite length_app. simpl. lia.
Qed.

(** X8: the first line that fails ends the run with its failure; the lines
    after it have no effect. *)
Theorem failing_line_ends_run (l1 l2 : list string) (line : string)
    (st st1 : state) (e : failure) :
  main_loop l1 st = Ok st1 ->
  loop_body line st1 = Abort e ->
  main_loop (l1 ++ line :: l2) st = Abort e.
Proof.
  intros H1 H. rewrite main_loop_app, H1. simpl. now rewrite H.
Qed.

(** X9: a line whose first token is none of the three tags (an empty line,
    for one) can be taken out of a file or put anywhere into it without
    changing the outcome of the run. *)
Theorem unrecognised_lines_are_transparent (l1 l2 : list string) (line : string) :
  ~ recognised (tag line) ->
  main (l1 ++ line :: l2) = main (l1 ++ l2).
Proof.
  intros Hn. unfold main. rewrite !main_loop_app.
  destruct (main_loop l1 initial) as [st1 | e] eqn:E; [| reflexivity].
  cbn [bind main_loop]. unfold loop_body.
  rewrite dispatch_unrecognised by assumption. cbn [bind].
  rewrite store_previous_synced; [reflexivity |].
  apply (main_loop_synced l1 initial st1); [split; reflexivity | exact E].
Qed.

(** X10: when a run has read all its lines, the cached timestamp is the
    current one and the cached sample is the current one. *)
Theorem run_keeps_caches_synced (lines : list string) (st : state) :
  main lines = Ok st ->
  t_prev st = t st /\ imu_measurement_prev st = imu_measurement st.
Proof.
  intros H. apply (main_loop_synced lines initial st); [split; reflexivity | exact H].
Qed.

(** X11: [dt] is measured from the last recognised record of any kind: for
    an IMU record that follows a CONTACT or KINEMATIC record, [dt] is the
    difference to the timestamp of that record, and the sample handed to
    [Propagate] is the one that was current before it. *)
Theorem dt_measured_from_last_record (c line : string) (st st1 : state)
    (tv : float) (v : nat -> float) :
  tag c = "CONTACT" \/ tag c = "KINEMATIC" ->
  loop_body c st = Ok st1 ->
  tag line = "IMU" ->
  length (split line) = 2 + 6 ->
  stod (token (split line) 1) = Some tv ->
  (forall i, 2 <= i < 8 -> stod (token (split line) i) = Some (v i)) ->
  exists tc st2,
    stod (token (split c) 1) = Some tc /\
    loop_body line st1 = Ok st2 /\
    filter_calls st2
    = filter_calls st1
      ++ (if gate (tv - tc)
          then [Propagate (imu_measurement st) (tv - tc)]
          else []).
Proof.
  intros Hc H Htag Hlen Ht Hv.
  apply loop_body_Ok in H. destruct H as (st0 & E & ->).
  assert (Hst0 : exists tc cs,
             stod (token (split c) 1) = Some tc /\
             st0 = State tc (t_prev st) (imu_measurement st)
                         (imu_measurement_prev st) cs).
  { destruct Hc as [Hc | Hc].
    - rewrite dispatch_CONTACT in E by assumption.
      apply handle_CONTACT_inv in E. destruct E as (tc & cs & Htc & ->). eauto.
    - rewrite dispatch_KINEMATIC in E by assumption.
      apply handle_KINEMATIC_inv in E. destruct E as (tc & mk & Htc & ->). eauto. }
  destruct Hst0 as (tc & cs & Htc & ->).
  exists tc. unfold loop_body. rewrite dispatch_IMU by assumption.
  rewrite (handle_IMU_ok _ _ tv v) by assumption.
  cbn [bind]. eexists. split; [exact Htc |]. split; reflexivity.
Qed.

(** X12: what a KINEMATIC entry hands over does not depend on what [H] and
    [Cov] held before the entry was read: neither the unassigned content of
    [Cov] nor the pose of the entry before reaches the estimator. *)
Theorem kinematic_entry_ignores_stale_matrices (measurement : list string)
    (i : nat) (H1 H2 C1 C2 : Eigen.Matrix)
    (ms : list (Z * Eigen.Matrix * Eigen.Matrix))
    (ints : nat -> Z) (v : nat -> float) :
  affine H1 -> affine H2 -> dims 6 6 C1 -> dims 6 6 C2 ->
  i + 44 <= length measurement ->
  stoi (token measurement i) = Some (ints i) ->
  (forall o, 1 <= o < 44 -> stod (token measurement (i + o)) = Some (v (i + o))) ->
  kinematic_body measurement i (H1, C1, ms)
  = kinematic_body measurement i (H2, C2, ms) /\
  exists H Cov obs,
    kinematic_body measurement i (H1, C1, ms) = Ok (H, Cov, ms ++ [obs]).
Proof.
  intros A1 A2 D1 D2 Hlen Hid Hv.
  rewrite (kinematic_body_ok measurement i H1 C1 ms ints v) by assumption.
  rewrite (kinematic_body_ok measurement i H2 C2 ms ints v) by assumption.
  split; [reflexivity | eauto].
Qed.

(** ** A space at the end of a record *)

Lemma handle_CONTACT_assert (measurement : list string) (st st' : state) :
  handle_CONTACT measurement st = Ok st' ->
  (size_minus_2 measurement mod 2 = 0)%Z.
Proof.
  unfold handle_CONTACT. intros H. apply bind_Ok in H.
  destruct H as (u & E & _). now apply assert_Ok, Z.eqb_eq in E.
Qed.

Lemma handle_KINEMATIC_assert (measurement : list string) (st st' : state) :
  handle_KINEMATIC measurement st = Ok st' ->
  (size_minus_2 measurement mod 44 = 0)%Z.
Proof.
  unfold handle_KINEMATIC. intros H. apply bind_Ok in H.
  destruct H as (u & E & _). now apply assert_Ok, Z.eqb_eq in E.
Qed.

Lemma split_trailing_space (line : string) :
  split (line ++ " ")%string = split line ++ [""].
Proof. apply (split_at_space line ""). Qed.

Lemma tag_trailing_space (line : string) : tag (line ++ " ")%string = tag line.
Proof.
  unfold tag, token. rewrite split_trailing_space.
  destruct (split_cons line) as (tok & toks & ->). reflexivity.
Qed.

(** X13: a record the loop accepts is no longer accepted once a space is
    added at its end: the empty token after that space makes the assertion
    on the count fail. *)
Theorem trailing_space_fails_assertion (line : string) (st st' : state) :
  recognised (tag line) ->
  (Z.of_nat (length (split line)) < SIZE_MAX)%Z ->
  loop_body line st = Ok st' ->
  loop_body (line ++ " ")%string st = Abort AssertionFailed.
Proof.
  intros Hrec Hmax H. apply loop_body_Ok in H. destruct H as (st1 & E & _).
  pose proof (length_split line) as Hpos.
  assert (Hlen : length (split (line ++ " ")%string) = length (split line) + 1)
    by (rewrite split_trailing_space, length_app; reflexivity).
  unfold loop_body. destruct Hrec as [Htag | [Htag | Htag]].
  - rewrite dispatch_IMU in E by assumption. apply handle_IMU_inv in E.
    destruct E as (tv & v2 & v3 & v4 & v5 & v6 & v7 & Hsize & _).
    apply assert_IMU_length in Hsize; [| lia].
    rewrite dispatch_IMU by (now rewrite tag_trailing_space).
    rewrite handle_IMU_bad_length; [reflexivity | lia | lia].
  - rewrite dispatch_CONTACT in E by assumption.
    apply handle_CONTACT_assert in E.
    destruct (assert_CONTACT_length (split line)) as (n & Hn); [lia | lia | assumption |].
    rewrite dispatch_CONTACT by (now rewrite tag_trailing_space).
    rewrite handle_CONTACT_odd; [reflexivity |]. exists (n + 1). lia.
  - rewrite dispatch_KINEMATIC in E by assumption.
    apply handle_KINEMATIC_assert in E.
    destruct (assert_KINEMATIC_length (split line)) as (n & Hn); [lia | assumption |].
    rewrite dispatch_KINEMATIC by (now rewrite tag_trailing_space).
    rewrite handle_KINEMATIC_bad_length; [reflexivity | lia |].
    intros n'. lia.
Qed.

End Driver.

(** ** Worked runs with the decimal reader *)

Tactic Notation "each_token" ident(i) "below" int_or_var(n) :=
  do n (destruct i as [| i]; [try lia; try (vm_compute; reflexivity) |]);
  try lia.

(** Two doubles are told apart by comparing both with the second one. *)
Ltac floats_differ y :=
  let H := fresh in
  intro H; apply (f_equal (fun z => PrimFloat.eqb z y)) in H;
  vm_compute in H; discriminate H.

Lemma imu_propagate_iff_gate_witness :
  tag imu_line_1 = "IMU" /\
  exists st',
    loop_body Decimal.stod Decimal.stoi imu_line_1 initial = Ok st' /\
    t st' = 0.1%float /\
    gate (t st' - t_prev initial) = true /\
    filter_calls st' = [Propagate (Eigen.Zero 6) 0.1].
Proof.
  assert (Htag : tag imu_line_1 = "IMU") by reflexivity.
  split; [exact Htag |].
  set (st' := State 0.1 0.1 [0; 0; 0; 0; 0; 9.81]%float
                    [0; 0; 0; 0; 0; 9.81]%float [Propagate (Eigen.Zero 6) 0.1]).
  assert (Hrun : loop_body Decimal.stod Decimal.stoi imu_line_1 initial = Ok st')
    by (vm_compute; reflexivity).
  destruct (imu_propagate_iff_gate Decimal.stod Decimal.stoi imu_line_1 initial st'
              Htag Hrun) as (_ & _ & Hadmit & _).
  exists st'. split; [exact Hrun |]. split; [reflexivity |].
  split; [reflexivity |]. apply Hadmit. reflexivity.
Defined.

Lemma imu_propagate_uses_cached_sample_witness :
  tag imu_line_1 = "IMU" /\
  length (split imu_line_1) = 2 + 6 /\
  Decimal.stod (token (split imu_line_1) 1) = Some 0.1%float /\
  exists st',
    loop_body Decimal.stod Decimal.stoi imu_line_1 initial = Ok st' /\
    filter_calls st' = [Propagate [0; 0; 0; 0; 0; 0]%float 0.1] /\
    imu_measurement_prev st' = [0; 0; 0; 0; 0; 9.81]%float.
Proof.
  assert (Htag : tag imu_line_1 = "IMU") by reflexivity.
  assert (Hlen : length (split imu_line_1) = 2 + 6) by reflexivity.
  assert (Ht : Decimal.stod (token (split imu_line_1) 1) = Some 0.1%float)
    by (vm_compute; reflexivity).
  assert (Hv : forall i, 2 <= i < 8 ->
                 Decimal.stod (token (split imu_line_1) i)
                 = Some (doubles imu_line_1 i))
    by (intros i Hi; each_token i below 8).
  repeat (split; [assumption |]).
  destruct (imu_propagate_uses_cached_sample Decimal.stod Decimal.stoi
              imu_line_1 initial 0.1 (doubles imu_line_1) Htag Hlen Ht Hv)
    as (st' & Hrun & Hadmit & Hprev & _).
  exists st'. split; [exact Hrun |]. split.
  - apply Hadmit. reflexivity.
  - rewrite Hprev. vm_compute. reflexivity.
Defined.

Lemma gate_rejection_is_silent_witness :
  main Decimal.stod Decimal.stoi ["IMU 0.500 1 2 3 4 5 6"] = Ok after_first_imu /\
  tag imu_line_repeated = "IMU" /\
  length (split imu_line_repeated) = 2 + 6 /\
  Decimal.stod (token (split imu_line_repeated) 1) = Some 0.5%float /\
  gate (0.5 - t_prev after_first_imu) = false /\
  exists st',
    loop_body Decimal.stod Decimal.stoi imu_line_repeated after_first_imu = Ok st' /\
    filter_calls st' = [Propagate (Eigen.Zero 6) 0.5] /\
    t_prev st' = 0.5%float /\
    imu_measurement_prev st' = [6; 5; 4; 3; 2; 1]%float.
Proof.
  assert (Htag : tag imu_line_repeated = "IMU") by reflexivity.
  assert (Hlen : length (split imu_line_repeated) = 2 + 6) by reflexivity.
  assert (Ht : Decimal.stod (token (split imu_line_repeated) 1) = Some 0.5%float)
    by (vm_compute; reflexivity).
  assert (Hv : forall i, 2 <= i < 8 ->
                 Decimal.stod (token (split imu_line_repeated) i)
                 = Some (doubles imu_line_repeated i))
    by (intros i Hi; each_token i below 8).
  assert (Hgate : gate (0.5 - t_prev after_first_imu) = false) by reflexivity.
  split; [vm_compute; reflexivity |].
  repeat (split; [assumption |]).
  destruct (gate_rejection_is_silent Decimal.stod Decimal.stoi imu_line_repeated
              after_first_imu 0.5 (doubles imu_line_repeated)
              Htag Hlen Ht Hv Hgate)
    as (st' & Hrun & Hcalls & Htprev & Hprev).
  exists st'. split; [exact Hrun |]. split; [exact Hcalls |].
  split; [exact Htprev |]. rewrite Hprev. vm_compute. reflexivity.
Defined.

(** C4 as stated fails: after the unrecognised record [FOO 5.0], read in the
    initial state, [t_prev] is still 0 and not the 5.0 of the record. *)
Lemma unrecognised_line_timestamp_not_stored :
  ~ recognised (tag unknown_line) /\
  Decimal.stod (token (split unknown_line) 1) = Some 5%float /\
  exists st',
    loop_body Decimal.stod Decimal.stoi unknown_line initial = Ok st' /\
    t_prev st' = 0%float /\
    t_prev st' <> 5%float.
Proof.
  split; [intros [H | [H | H]]; discriminate H |].
  split; [vm_compute; reflexivity |].
  eexists. split; [vm_compute; reflexivity |].
  split; [reflexivity |]. cbn [t_prev]. floats_differ 5%float.
Qed.

Lemma previous_timestamp_after_iteration_witness :
  (exists st',
     loop_body Decimal.stod Decimal.stoi contact_line initial = Ok st' /\
     t_prev st' = t st' /\
     Decimal.stod (token (split contact_line) 1) = Some (t st')) /\
  (exists st',
     loop_body Decimal.stod Decimal.stoi unknown_line after_two_imu = Ok st' /\
     t_prev st' = t st' /\
     t st' = 0.1%float /\
     filter_calls st' = filter_calls after_two_imu).
Proof.
  split.
  - set (st' := State 1 1 (Eigen.Zero 6) (Eigen.Zero 6)
                      [setContacts [(0%Z, true); (1%Z, false)]]).
    assert (Hrun : loop_body Decimal.stod Decimal.stoi contact_line initial = Ok st')
      by (vm_compute; reflexivity).
    destruct (previous_timestamp_after_iteration Decimal.stod Decimal.stoi
                contact_line initial st' Hrun) as (Hprev & Hrec & _).
    exists st'. split; [exact Hrun |]. split; [exact Hprev |].
    apply Hrec. right; left. reflexivity.
  - assert (Hrun : loop_body Decimal.stod Decimal.stoi unknown_line after_two_imu
                   = Ok after_two_imu)
      by (vm_compute; reflexivity).
    destruct (previous_timestamp_after_iteration Decimal.stod Decimal.stoi
                unknown_line after_two_imu after_two_imu Hrun)
      as (Hprev & _ & Hunknown).
    assert (Hfoo : ~ recognised (tag unknown_line))
      by (intros [H | [H | H]]; discriminate H).
    destruct (Hunknown Hfoo) as (Ht & _ & Hcalls).
    exists after_two_imu. split; [exact Hrun |]. split; [exact Hprev |].
    split; [exact Ht | exact Hcalls].
Defined.

Lemma imu_payload_length_six_witness :
  tag imu_line_short = "IMU" /\
  length (split imu_line_short) <> 2 + 6 /\
  loop_body Decimal.stod Decimal.stoi imu_line_short initial = Abort AssertionFailed /\
  tag imu_line_1 = "IMU" /\
  length (split imu_line_1) = 2 + 6 /\
  exists st',
    loop_body Decimal.stod Decimal.stoi imu_line_1 initial = Ok st' /\
    imu_measurement st' = [0; 0; 0; 0; 0; 9.81]%float.
Proof.
  assert (Htag0 : tag imu_line_short = "IMU") by reflexivity.
  assert (Hmax0 : (Z.of_nat (length (split imu_line_short)) <= SIZE_MAX)%Z)
    by (vm_compute; discriminate).
  assert (Hlen0 : length (split imu_line_short) <> 2 + 6)
    by (vm_compute; discriminate).
  assert (Htag : tag imu_line_1 = "IMU") by reflexivity.
  assert (Hmax : (Z.of_nat (length (split imu_line_1)) <= SIZE_MAX)%Z)
    by (vm_compute; discriminate).
  assert (Hlen : length (split imu_line_1) = 2 + 6) by reflexivity.
  assert (Ht : Decimal.stod (token (split imu_line_1) 1) = Some 0.1%float)
    by (vm_compute; reflexivity).
  assert (Hv : forall i, 2 <= i < 8 ->
                 Decimal.stod (token (split imu_line_1) i)
                 = Some (doubles imu_line_1 i))
    by (intros i Hi; each_token i below 8).
  split; [exact Htag0 |]. split; [exact Hlen0 |]. split.
  - exact (proj1 (imu_payload_length_six Decimal.stod Decimal.stoi
                    imu_line_short initial Htag0 Hmax0) Hlen0).
  - split; [exact Htag |]. split; [exact Hlen |].
    destruct (proj2 (proj2 (imu_payload_length_six Decimal.stod Decimal.stoi
                              imu_line_1 initial Htag Hmax))
                Hlen 0.1%float (doubles imu_line_1) Ht Hv)
      as (st' & Hrun & Himu).
    exists st'. split; [exact Hrun |]. rewrite Himu. vm_compute. reflexivity.
Defined.

Lemma contact_pairs_forwarded_witness :
  tag contact_line = "CONTACT" /\
  length (split contact_line) = 2 + 2 * 2 /\
  (exists st',
     loop_body Decimal.stod Decimal.stoi contact_line initial = Ok st' /\
     filter_calls st' = [setContacts [(0%Z, true); (1%Z, false)]]) /\
  tag contact_line_odd = "CONTACT" /\
  length (split contact_line_odd) = 2 + (2 * 0 + 1) /\
  loop_body Decimal.stod Decimal.stoi contact_line_odd initial = Abort AssertionFailed.
Proof.
  assert (Htag : tag contact_line = "CONTACT") by reflexivity.
  assert (Hlen : length (split contact_line) = 2 + 2 * 2) by reflexivity.
  assert (Hmax : (Z.of_nat (length (split contact_line)) <= INT_MAX)%Z)
    by (vm_compute; discriminate).
  assert (Ht : Decimal.stod (token (split contact_line) 1) = Some 1%float)
    by (vm_compute; reflexivity).
  assert (Hconv : forall k, k < 2 ->
            Decimal.stoi (token (split contact_line) (2 + 2 * k))
            = Some (integers contact_line (2 + 2 * k)) /\
            Decimal.stod (token (split contact_line) (3 + 2 * k))
            = Some (doubles contact_line (3 + 2 * k))).
  { intros k Hk. do 2 (destruct k as [| k]; [split; vm_compute; reflexivity |]). lia. }
  assert (Htag1 : tag contact_line_odd = "CONTACT") by reflexivity.
  assert (Hlen1 : length (split contact_line_odd) = 2 + (2 * 0 + 1)) by reflexivity.
  split; [exact Htag |]. split; [exact Hlen |]. split.
  - destruct (proj1 (contact_pairs_forwarded Decimal.stod Decimal.stoi
                       contact_line initial 2 Htag)
                Hlen Hmax 1%float (integers contact_line) (doubles contact_line)
                Ht Hconv)
      as (st' & contacts & Hrun & Hcalls & Hsize & Hpairs).
    exists st'. split; [exact Hrun |]. rewrite Hcalls. simpl. do 2 f_equal.
    pose proof (Hpairs 0 ltac:(lia)) as H0.
    pose proof (Hpairs 1 ltac:(lia)) as H1.
    destruct contacts as [| c0 [| c1 [| c2 rest]]]; try discriminate Hsize.
    simpl in H0, H1. inversion H0. inversion H1. vm_compute. reflexivity.
  - split; [exact Htag1 |]. split; [exact Hlen1 |].
    exact (proj2 (contact_pairs_forwarded Decimal.stod Decimal.stoi
                    contact_line_odd initial 0 Htag1) Hlen1).
Defined.

Lemma contact_indicator_nonzero_witness :
  tag contact_line_values = "CONTACT" /\
  length (split contact_line_values) = 2 + 2 * 3 /\
  doubles contact_line_values 3 = 2.5%float /\
  doubles contact_line_values 5 = (-1)%float /\
  doubles contact_line_values 7 = 0%float /\
  exists st' contacts,
    loop_body Decimal.stod Decimal.stoi contact_line_values initial = Ok st' /\
    filter_calls st' = [setContacts contacts] /\
    (exists id, nth_error contacts 0 = Some (id, true)) /\
    (exists id, nth_error contacts 1 = Some (id, true)) /\
    (exists id, nth_error contacts 2 = Some (id, false)).
Proof.
  assert (Htag : tag contact_line_values = "CONTACT") by reflexivity.
  assert (Hlen : length (split contact_line_values) = 2 + 2 * 3) by reflexivity.
  assert (Hmax : (Z.of_nat (length (split contact_line_values)) <= INT_MAX)%Z)
    by (vm_compute; discriminate).
  assert (Ht : Decimal.stod (token (split contact_line_values) 1) = Some 1%float)
    by (vm_compute; reflexivity).
  assert (Hconv : forall k, k < 3 ->
            Decimal.stoi (token (split contact_line_values) (2 + 2 * k))
            = Some (integers contact_line_values (2 + 2 * k)) /\
            Decimal.stod (token (split contact_line_values) (3 + 2 * k))
            = Some (doubles contact_line_values (3 + 2 * k))).
  { intros k Hk. do 3 (destruct k as [| k]; [split; vm_compute; reflexivity |]). lia. }
  split; [exact Htag |]. split; [exact Hlen |].
  do 3 (split; [vm_compute; reflexivity |]).
  destruct (contact_indicator_nonzero Decimal.stod Decimal.stoi contact_line_values
              initial 3 1%float (integers contact_line_values)
              (doubles contact_line_values) Htag Hlen Hmax Ht Hconv)
    as (st' & contacts & Hrun & Hcalls & Hind & _).
  exists st', contacts. split; [exact Hrun |]. split; [exact Hcalls |].
  destruct (Hind 0 ltac:(lia)) as (id0 & b0 & E0 & I0).
  destruct (Hind 1 ltac:(lia)) as (id1 & b1 & E1 & I1).
  destruct (Hind 2 ltac:(lia)) as (id2 & b2 & E2 & I2).
  split; [| split].
  - exists id0. rewrite E0. do 2 f_equal. apply I0. vm_compute. reflexivity.
  - exists id1. rewrite E1. do 2 f_equal. apply I1. vm_compute. reflexivity.
  - exists id2. rewrite E2. do 2 f_equal.
    destruct b2; [| reflexivity].
    assert (F : PrimFloat.eqb (doubles contact_line_values (3 + 2 * 2)) 0 = false)
      by (apply I2; reflexivity).
    vm_compute in F. discriminate F.
Defined.

Section KinematicObservationsWitness.

Import Rdefinitions.


End KinematicObservationsWitness.


(** Rounding alone already moves the squared norm away from 1: for the
    quaternion (1, 1, 0, 0) it is [1 - 2^-52]. *)
Remark normalize_rounds (q := Eigen.normalize (Eigen.Quat 1 1 0 0)) :
  Eigen.squaredNorm q = 0x1.ffffffffffffep-1%float /\
  Eigen.squaredNorm q <> 1%float.
Proof.
  split; [vm_compute; reflexivity | floats_differ 1%float].
Qed.

Lemma covariance_row_major_witness :
  tag kinematic_line = "KINEMATIC" /\
  length (split kinematic_line) = 2 + 44 * 1 /\
  (forall o, o < 36 -> doubles kinematic_line (2 + 44 * 0 + 8 + o) = float_of_nat o) /\
  exists st' measured_kinematics id H Cov,
    loop_body Decimal.stod Decimal.stoi kinematic_line initial = Ok st' /\
    filter_calls st' = [CorrectKinematics measured_kinematics] /\
    nth_error measured_kinematics 0 = Some (id, H, Cov) /\
    Eigen.coeff Cov 2 3 = 15%float.
Proof.
  assert (Htag : tag kinematic_line = "KINEMATIC") by reflexivity.
  assert (Hlen : length (split kinematic_line) = 2 + 44 * 1) by reflexivity.
  assert (Hmax : (Z.of_nat (length (split kinematic_line)) <= INT_MAX)%Z)
    by (vm_compute; discriminate).
  assert (Ht : Decimal.stod (token (split kinematic_line) 1) = Some 0.5%float)
    by (vm_compute; reflexivity).
  assert (Hconv : forall e, e < 1 ->
            Decimal.stoi (token (split kinematic_line) (2 + 44 * e))
            = Some (integers kinematic_line (2 + 44 * e)) /\
            forall o, 1 <= o < 44 ->
              Decimal.stod (token (split kinematic_line) (2 + 44 * e + o))
              = Some (doubles kinematic_line (2 + 44 * e + o))).
  { intros e He. destruct e as [| e]; [| lia].
    split; [vm_compute; reflexivity |]. intros o Ho. each_token o below 44. }
  assert (Hseq : forall o, o < 36 ->
            doubles kinematic_line (2 + 44 * 0 + 8 + o) = float_of_nat o)
    by (intros o Ho; each_token o below 36).
  split; [exact Htag |]. split; [exact Hlen |]. split; [exact Hseq |].
  destruct (covariance_row_major Decimal.stod Decimal.stoi kinematic_line initial
              1 0.5%float (integers kinematic_line) (doubles kinematic_line)
              Htag Hlen Hmax Ht Hconv)
    as (st' & obs & Hrun & Hcalls & Hobs).
  destruct (Hobs 0 ltac:(lia)) as (id & H & Cov & E & _ & H15).
  exists st', obs, id, H, Cov. split; [exact Hrun |]. split; [exact Hcalls |].
  split; [exact E |]. exact (H15 Hseq).
Defined.

Lemma first_token_and_unrecognised_line_witness :
  reachable Decimal.stod Decimal.stoi after_two_imu /\
  ~ recognised (tag unknown_line) /\
  ~ recognised (tag "") /\
  length (split "") = 1 /\
  (exists st',
     loop_body Decimal.stod Decimal.stoi unknown_line after_two_imu = Ok st' /\
     filter_calls st' = filter_calls after_two_imu /\
     t_prev st' = 0.1%float /\
     imu_measurement_prev st' = [0; 0; 0; 0; 0; 9.81]%float) /\
  (exists st',
     loop_body Decimal.stod Decimal.stoi "" after_two_imu = Ok st' /\
     filter_calls st' = filter_calls after_two_imu).
Proof.
  assert (Hreach : reachable Decimal.stod Decimal.stoi after_two_imu)
    by (exists [imu_line_0; imu_line_1]; vm_compute; reflexivity).
  assert (Hfoo : ~ recognised (tag unknown_line))
    by (intros [H | [H | H]]; discriminate H).
  assert (Hempty : ~ recognised (tag ""))
    by (intros [H | [H | H]]; discriminate H).
  split; [exact Hreach |]. split; [exact Hfoo |]. split; [exact Hempty |].
  split; [reflexivity |]. split.
  - destruct (first_token_and_unrecognised_line Decimal.stod Decimal.stoi
                unknown_line after_two_imu Hreach)
      as (_ & _ & Hnoop).
    destruct (Hnoop Hfoo) as (st' & Hrun & Hcalls & Ht & Hm).
    exists st'. repeat split; assumption.
  - destruct (first_token_and_unrecognised_line Decimal.stod Decimal.stoi
                "" after_two_imu Hreach)
      as (_ & _ & Hnoop).
    destruct (Hnoop Hempty) as (st' & Hrun & Hcalls & _).
    exists st'. split; assumption.
Defined.

(** ** Worked runs for the further properties *)

Lemma join_then_split_witness :
  ["IMU"; ""; "0.1"] <> [] /\
  Forall (fun tok => space_free tok = true) ["IMU"; ""; "0.1"] /\
  split "IMU  0.1" = ["IMU"; ""; "0.1"].
Proof.
  assert (Hne : ["IMU"; ""; "0.1"] <> []) by discriminate.
  assert (Hfree : Forall (fun tok => space_free tok = true) ["IMU"; ""; "0.1"])
    by (repeat constructor).
  split; [exact Hne |]. split; [exact Hfree |].
  exact (join_then_split ["IMU"; ""; "0.1"] Hne Hfree).
Defined.

Lemma run_stops_only_on_assert_or_conversion_witness :
  main_loop Decimal.stod Decimal.stoi [imu_line_1; imu_line_bad_number] initial
  = Abort ConversionThrown /\
  main_loop Decimal.stod Decimal.stoi [imu_line_1; imu_line_short] initial
  = Abort AssertionFailed /\
  (ConversionThrown = AssertionFailed \/ ConversionThrown = ConversionThrown).
Proof.
  assert (Hall : Forall (fun line => (Z.of_nat (length (split line)) <= INT_MAX)%Z)
                        [imu_line_1; imu_line_bad_number])
    by (repeat constructor; vm_compute; discriminate).
  assert (Hrun : main_loop Decimal.stod Decimal.stoi
                   [imu_line_1; imu_line_bad_number] initial
                 = Abort ConversionThrown)
    by (vm_compute; reflexivity).
  split; [exact Hrun |]. split; [vm_compute; reflexivity |].
  exact (run_stops_only_on_assert_or_conversion Decimal.stod Decimal.stoi
           [imu_line_1; imu_line_bad_number] initial ConversionThrown Hall Hrun).
Defined.

Lemma kinematic_payload_multiple_of_44_witness :
  tag kinematic_line_short = "KINEMATIC" /\
  length (split kinematic_line_short) = 5 /\
  loop_body Decimal.stod Decimal.stoi kinematic_line_short initial
  = Abort AssertionFailed /\
  loop_body Decimal.stod Decimal.stoi "KINEMATIC" initial = Abort AssertionFailed.
Proof.
  assert (Htag : tag kinematic_line_short = "KINEMATIC") by reflexivity.
  assert (Hlen : length (split kinematic_line_short) = 5) by reflexivity.
  assert (Hmax : (Z.of_nat (length (split kinematic_line_short)) <= SIZE_MAX)%Z)
    by (vm_compute; discriminate).
  assert (Hn : forall n, length (split kinematic_line_short) <> 2 + 44 * n)
    by (intros n; rewrite Hlen; lia).
  assert (Hlen1 : length (split "KINEMATIC") = 1) by reflexivity.
  assert (Hmax1 : (Z.of_nat (length (split "KINEMATIC")) <= SIZE_MAX)%Z)
    by (vm_compute; discriminate).
  assert (Hn1 : forall n, length (split "KINEMATIC") <> 2 + 44 * n)
    by (intros n; rewrite Hlen1; lia).
  split; [exact Htag |]. split; [exact Hlen |]. split.
  - exact (kinematic_payload_multiple_of_44 Decimal.stod Decimal.stoi
             kinematic_line_short initial Htag Hmax Hn).
  - exact (kinematic_payload_multiple_of_44 Decimal.stod Decimal.stoi
             "KINEMATIC" initial eq_refl Hmax1 Hn1).
Defined.

Lemma imu_bad_number_throws_witness :
  tag imu_line_bad_number = "IMU" /\
  length (split imu_line_bad_number) = 2 + 6 /\
  token (split imu_line_bad_number) 4 = "x" /\
  Decimal.stod (token (split imu_line_bad_number) 4) = None /\
  loop_body Decimal.stod Decimal.stoi imu_line_bad_number initial
  = Abort ConversionThrown.
Proof.
  assert (Htag : tag imu_line_bad_number = "IMU") by reflexivity.
  assert (Hlen : length (split imu_line_bad_number) = 2 + 6) by reflexivity.
  assert (Hi : 1 <= 4 < 8) by lia.
  assert (Hnone : Decimal.stod (token (split imu_line_bad_number) 4) = None)
    by reflexivity.
  split; [exact Htag |]. split; [exact Hlen |]. split; [reflexivity |].
  split; [exact Hnone |].
  exact (imu_bad_number_throws Decimal.stod Decimal.stoi imu_line_bad_number
           initial 4 Htag Hlen Hi Hnone).
Defined.

Lemma line_calls_match_tag_witness :
  exists st',
    loop_body Decimal.stod Decimal.stoi contact_line after_two_imu = Ok st' /\
    exists contacts,
      filter_calls st' = filter_calls after_two_imu ++ [setContacts contacts].
Proof.
  set (st' := State 1 1 [0; 0; 0; 0; 0; 9.81]%float [0; 0; 0; 0; 0; 9.81]%float
                    [Propagate (Eigen.Zero 6) 0.1;
                     setContacts [(0%Z, true); (1%Z, false)]]).
  assert (Hrun : loop_body Decimal.stod Decimal.stoi contact_line after_two_imu
                 = Ok st')
    by (vm_compute; reflexivity).
  exists st'. split; [exact Hrun |].
  destruct (line_calls_match_tag Decimal.stod Decimal.stoi contact_line
              after_two_imu st' Hrun)
    as [[Htag _] | [[_ Hc] | [[Htag _] | [Hn _]]]].
  - discriminate Htag.
  - exact Hc.
  - discriminate Htag.
  - exfalso. apply Hn. right; left. reflexivity.
Defined.

Lemma run_appends_at_most_one_call_per_line_witness :
  exists st' cs,
    main_loop Decimal.stod Decimal.stoi
      [imu_line_0; imu_line_1; unknown_line; contact_line] initial = Ok st' /\
    filter_calls st' = filter_calls initial ++ cs /\
    length cs <= 4.
Proof.
  set (st' := State 1 1 [0; 0; 0; 0; 0; 9.81]%float [0; 0; 0; 0; 0; 9.81]%float
                    [Propagate (Eigen.Zero 6) 0.1;
                     setContacts [(0%Z, true); (1%Z, false)]]).
  assert (Hrun : main_loop Decimal.stod Decimal.stoi
                   [imu_line_0; imu_line_1; unknown_line; contact_line] initial
                 = Ok st')
    by (vm_compute; reflexivity).
  destruct (run_appends_at_most_one_call_per_line Decimal.stod Decimal.stoi
              [imu_line_0; imu_line_1; unknown_line; contact_line] initial st' Hrun)
    as (cs & Hcs & Hlen).
  exists st', cs. split; [exact Hrun |]. split; [exact Hcs | exact Hlen].
Defined.

Lemma failing_line_ends_run_witness :
  main_loop Decimal.stod Decimal.stoi [imu_line_1] initial = Ok after_two_imu /\
  loop_body Decimal.stod Decimal.stoi imu_line_short after_two_imu
  = Abort AssertionFailed /\
  main_loop Decimal.stod Decimal.stoi
    ([imu_line_1] ++ imu_line_short :: [contact_line]) initial
  = Abort AssertionFailed.
Proof.
  assert (H1 : main_loop Decimal.stod Decimal.stoi [imu_line_1] initial
               = Ok after_two_imu)
    by (vm_compute; reflexivity).
  assert (H2 : loop_body Decimal.stod Decimal.stoi imu_line_short after_two_imu
               = Abort AssertionFailed)
    by (vm_compute; reflexivity).
  split; [exact H1 |]. split; [exact H2 |].
  exact (failing_line_ends_run Decimal.stod Decimal.stoi [imu_line_1]
           [contact_line] imu_line_short initial after_two_imu AssertionFailed
           H1 H2).
Defined.

Lemma unrecognised_lines_are_transparent_witness :
  ~ recognised (tag unknown_line) /\
  main Decimal.stod Decimal.stoi ([imu_line_1] ++ unknown_line :: [contact_line])
  = main Decimal.stod Decimal.stoi ([imu_line_1] ++ [contact_line]).
Proof.
  assert (Hfoo : ~ recognised (tag unknown_line))
    by (intros [H | [H | H]]; discriminate H).
  split; [exact Hfoo |].
  exact (unrecognised_lines_are_transparent Decimal.stod Decimal.stoi
           [imu_line_1] [contact_line] unknown_line Hfoo).
Defined.

Lemma run_keeps_caches_synced_witness :
  main Decimal.stod Decimal.stoi [imu_line_0; imu_line_1] = Ok after_two_imu /\
  t_prev after_two_imu = t after_two_imu /\
  imu_measurement_prev after_two_imu = imu_measurement after_two_imu.
Proof.
  assert (Hrun : main Decimal.stod Decimal.stoi [imu_line_0; imu_line_1]
                 = Ok after_two_imu)
    by (vm_compute; reflexivity).
  split; [exact Hrun |].
  exact (run_keeps_caches_synced Decimal.stod Decimal.stoi
           [imu_line_0; imu_line_1] after_two_imu Hrun).
Defined.

Lemma dt_measured_from_last_record_witness :
  tag contact_line_2 = "CONTACT" /\
  tag imu_line_after_contact = "IMU" /\
  length (split imu_line_after_contact) = 2 + 6 /\
  exists st1 st2,
    loop_body Decimal.stod Decimal.stoi contact_line_2 after_two_imu = Ok st1 /\
    loop_body Decimal.stod Decimal.stoi imu_line_after_contact st1 = Ok st2 /\
    filter_calls st2
    = filter_calls st1
      ++ [Propagate [0; 0; 0; 0; 0; 9.81]%float (0.35 - 0.3)%float].
Proof.
  assert (Hc : tag contact_line_2 = "CONTACT") by reflexivity.
  assert (Htag : tag imu_line_after_contact = "IMU") by reflexivity.
  assert (Hlen : length (split imu_line_after_contact) = 2 + 6) by reflexivity.
  assert (Ht : Decimal.stod (token (split imu_line_after_contact) 1)
               = Some 0.35%float)
    by (vm_compute; reflexivity).
  assert (Hv : forall i, 2 <= i < 8 ->
                 Decimal.stod (token (split imu_line_after_contact) i)
                 = Some (doubles imu_line_after_contact i))
    by (intros i Hi; each_token i below 8).
  set (st1 := State 0.3 0.3 [0; 0; 0; 0; 0; 9.81]%float [0; 0; 0; 0; 0; 9.81]%float
                    [Propagate (Eigen.Zero 6) 0.1; setContacts [(0%Z, true)]]).
  assert (H1 : loop_body Decimal.stod Decimal.stoi contact_line_2 after_two_imu
               = Ok st1)
    by (vm_compute; reflexivity).
  split; [exact Hc |]. split; [exact Htag |]. split; [exact Hlen |].
  destruct (dt_measured_from_last_record Decimal.stod Decimal.stoi contact_line_2
              imu_line_after_contact after_two_imu st1 0.35%float
              (doubles imu_line_after_contact) (or_introl Hc) H1 Htag Hlen Ht Hv)
    as (tc & st2 & Htc & H2 & Hcalls).
  exists st1, st2. split; [exact H1 |]. split; [exact H2 |].
  rewrite Hcalls. f_equal.
  assert (E : tc = 0.3%float).
  { assert (E0 : Decimal.stod (token (split contact_line_2) 1) = Some 0.3%float)
      by (vm_compute; reflexivity).
    rewrite E0 in Htc. now inversion Htc. }
  subst tc. vm_compute. reflexivity.
Defined.

Lemma kinematic_entry_ignores_stale_matrices_witness :
  let H2 := [[0; 1; 0; 5]; [1; 0; 0; 6]; [0; 0; 1; 7]; [0; 0; 0; 1]]%float in
  let C2 := row_major_6x6 (fun _ => 0%float) 0 in
  affine H2 /\
  dims 6 6 C2 /\
  kinematic_body Decimal.stod Decimal.stoi (split kinematic_line) 2
    (Eigen.Identity4, Eigen.Uninitialized6, [])
  = kinematic_body Decimal.stod Decimal.stoi (split kinematic_line) 2
      (H2, C2, []).
Proof.
  intros H2 C2.
  assert (A2 : affine H2)
    by (now exists (0, 1, 0, 5)%float, (1, 0, 0, 6)%float, (0, 0, 1, 7)%float).
  assert (D2 : dims 6 6 C2) by apply dims_row_major.
  assert (Hlen : 2 + 44 <= length (split kinematic_line))
    by (vm_compute; repeat constructor).
  assert (Hid : Decimal.stoi (token (split kinematic_line) 2)
                = Some (integers kinematic_line 2))
    by (vm_compute; reflexivity).
  assert (Hv : forall o, 1 <= o < 44 ->
                 Decimal.stod (token (split kinematic_line) (2 + o))
                 = Some (doubles kinematic_line (2 + o)))
    by (intros o Ho; each_token o below 44).
  split; [exact A2 |]. split; [exact D2 |].
  exact (proj1 (kinematic_entry_ignores_stale_matrices Decimal.stod Decimal.stoi
                  (split kinematic_line) 2 Eigen.Identity4 H2
                  Eigen.Uninitialized6 C2 [] (integers kinematic_line)
                  (doubles kinematic_line) affine_Identity4 A2
                  dims_Uninitialized6 D2 Hlen Hid Hv)).
Defined.

Lemma trailing_space_fails_assertion_witness :
  recognised (tag contact_line) /\
  (exists st', loop_body Decimal.stod Decimal.stoi contact_line initial = Ok st') /\
  loop_body Decimal.stod Decimal.stoi "CONTACT 1.0 0 1 1 0 " initial
  = Abort AssertionFailed.
Proof.
  assert (Hrec : recognised (tag contact_line)) by (right; left; reflexivity).
  assert (Hmax : (Z.of_nat (length (split contact_line)) < SIZE_MAX)%Z)
    by (vm_compute; reflexivity).
  set (st' := State 1 1 (Eigen.Zero 6) (Eigen.Zero 6)
                    [setContacts [(0%Z, true); (1%Z, false)]]).
  assert (Hrun : loop_body Decimal.stod Decimal.stoi contact_line initial = Ok st')
    by (vm_compute; reflexivity).
  split; [exact Hrec |]. split; [exists st'; exact Hrun |].
  exact (trailing_space_fails_assertion Decimal.stod Decimal.stoi contact_line
           initial st' Hrec Hmax Hrun).
Defined.
